(** * experimentation.py: per-sample analysis of transformer representations

    A shallow embedding of [src/experimentation.py].  Arrays are modelled
    with their shape and an index function, Python exceptions with an
    error monad, and the numeric libraries the script calls (numpy, torch,
    scikit-learn, hdbscan) by the part of their documented behaviour that
    the script depends on.  Floating-point numbers are modelled as exact
    reals extended with one undefined value (NaN or an infinity); rounding
    and overflow are not modelled. *)

From Stdlib Require Import Reals Lra Lia ZArith.
From stdpp Require Import base option list strings pretty gmap.

(** ** Python exceptions *)

Inductive exn :=
  | AssertionError
  | IndexError
  | ValueError
  | RuntimeError
  | ZeroDivisionError
  | NotImplementedError.

Inductive result (A : Type) :=
  | Ok (a : A)
  | Raise (e : exn).
Arguments Ok {A} a.
Arguments Raise {A} e.

#[global] Instance result_ret : MRet result := fun _ a => Ok a.
#[global] Instance result_bind : MBind result := fun _ _ f m =>
  match m with Ok a => f a | Raise e => Raise e end.
#[global] Instance result_fmap : FMap result := fun _ _ f m =>
  match m with Ok a => Ok (f a) | Raise e => Raise e end.

Definition is_Ok {A} (m : result A) : Prop := exists a, m = Ok a.

(** ** Floating-point values

    [Some x] is the finite number [x]; [None] is an undefined value, NaN
    or an infinity.  Sums and products propagate undefined operands, as
    IEEE arithmetic does for NaN and, up to the choice between NaN and an
    infinity, for infinities. *)

Definition fval := option R.

Definition fadd (a b : fval) : fval :=
  match a, b with Some x, Some y => Some (x + y)%R | _, _ => None end.

Definition fmul (a b : fval) : fval :=
  match a, b with Some x, Some y => Some (x * y)%R | _, _ => None end.

(** Division: [x / 0] is an infinity or, for [0 / 0], NaN. *)
Definition fdiv (a b : fval) : fval :=
  match a, b with
  | Some x, Some y => if Req_dec_T y 0 then None else Some (x / y)%R
  | _, _ => None
  end.

Definition fsqrt (a : fval) : fval :=
  match a with
  | Some x => if Rlt_dec x 0 then None else Some (sqrt x)
  | None => None
  end.

Definition fsum (l : list fval) : fval := foldr fadd (Some 0%R) l.

(** ** numpy arrays *)

(** The element types of the arrays the script handles: cluster labels
    are [int64], cluster metrics [float64], the matrices coming from torch
    and the t-SNE coordinates [float32]. *)
Inductive dtype := int64 | float32 | float64.

#[global] Instance dtype_eq_dec : EqDecision dtype.
Proof. solve_decision. Defined.

(** What numpy does to a scalar when it is stored in an array of a given
    element type: [of_int] converts the Python integer passed as
    [fill_value], [cast] converts an element on assignment.  Storing an
    element into an array of its own element type copies it. *)
Class Scalars (V : Type) := {
  of_int : dtype -> Z -> V;
  cast : dtype -> dtype -> V -> V;
  cast_same : forall d v, cast d d v = v
}.

Record ndarray (V : Type) := {
  dtype_of : dtype;
  shape : list nat;
  item : list nat -> V
}.
Arguments dtype_of {V} _.
Arguments shape {V} _.
Arguments item {V} _ _.

Definition ndim {V} (a : ndarray V) : nat := length (shape a).

(** [idx] is a valid index of an array of shape [shp]. *)
Fixpoint in_region (shp idx : list nat) : bool :=
  match shp, idx with
  | [], [] => true
  | n :: shp', j :: idx' => (j <? n) && in_region shp' idx'
  | _, _ => false
  end.

(** [a.shape[dim]] *)
Definition shape_at {V} (a : ndarray V) (dim : nat) : result nat :=
  match shape a !! dim with
  | Some n => Ok n
  | None => Raise IndexError
  end.

(** [max(a.shape[dim] for a in ndarray_list)] *)
Definition max_extent {V} (ndarray_list : list (ndarray V)) (dim : nat)
  : result nat :=
  ns ← mapM (fun a => shape_at a dim) ndarray_list;
  match ns with
  | [] => Raise ValueError
  | _ => Ok (list_max ns)
  end.

(** [np.full(target_shape, fill_value=pad_value, dtype=dt)], for a fill
    value that the element type can hold, as 0 is for every type; numpy
    refuses, with an [OverflowError], an integer that does not fit. *)
Definition np_full {V} `{Scalars V} (target_shape : list nat) (pad_value : Z)
    (dt : dtype) : ndarray V :=
  {| dtype_of := dt;
     shape := target_shape;
     item := fun _ => of_int dt pad_value |}.

(** [stacked_array[i, *[slice(0, a.shape[dim]) for dim in range(a.ndim)]] = a].
    The index has [1 + a.ndim] entries, which numpy refuses when the
    target has fewer dimensions; an array of lower rank than the first
    never gets here, [max_extent] has raised on it before. *)
Definition assign_slot {V} `{Scalars V} (stacked_array : ndarray V) (i : nat)
    (a : ndarray V) : result (ndarray V) :=
  if decide (S (ndim a) = ndim stacked_array) then
    Ok {| dtype_of := dtype_of stacked_array;
          shape := shape stacked_array;
          item := fun idx =>
            match idx with
            | i' :: rest =>
                if (i' =? i) && in_region (shape a) rest
                then cast (dtype_of a) (dtype_of stacked_array) (item a rest)
                else item stacked_array idx
            | [] => item stacked_array idx
            end |}
  else Raise IndexError.

(** [for i, a in enumerate(ndarray_list): ...], from index [i] on. *)
Fixpoint assign_all {V} `{Scalars V} (i : nat) (ndarray_list : list (ndarray V))
    (stacked_array : ndarray V) : result (ndarray V) :=
  match ndarray_list with
  | [] => Ok stacked_array
  | a :: rest =>
      stacked_array' ← assign_slot stacked_array i a;
      assign_all (S i) rest stacked_array'
  end.

(** [pad_value] defaults to 0, and no caller passes another value. *)
Definition stack_padded {V} `{Scalars V} (ndarray_list : list (ndarray V))
    (pad_value : Z) : result (ndarray V) :=
  match ndarray_list with
  | [] => Raise AssertionError
  | a0 :: _ =>
      dims ← mapM (max_extent ndarray_list) (seq 0 (ndim a0));
      let target_shape := length ndarray_list :: dims in
      assign_all 0 ndarray_list (np_full target_shape pad_value (dtype_of a0))
  end.

(** The element-wise maximum of the shapes of a list of arrays of rank [r]. *)
Definition max_shape {V} (r : nat) (l : list (ndarray V)) : list nat :=
  map (fun dim => list_max (map (fun a => nth dim (shape a) 0) l)) (seq 0 r).

(** What the slot [i'] of the target holds at [idx] once the arrays of
    [l] have been written to the slots [i], [i + 1], ... *)
Definition slot_item {V} `{Scalars V} (i : nat) (l : list (ndarray V)) (st : ndarray V)
    (i' : nat) (idx : list nat) : V :=
  match (if decide (i <= i') then l !! (i' - i) else None) with
  | Some a =>
      if in_region (shape a) idx
      then cast (dtype_of a) (dtype_of st) (item a idx)
      else item st (i' :: idx)
  | None => item st (i' :: idx)
  end.

(** [np.stack(arrays)]: the arrays must be of one shape, and there must be
    one at least. *)
Definition np_stack {V} (arrays : list (ndarray V)) : result (ndarray V) :=
  match arrays with
  | [] => Raise ValueError
  | a0 :: _ =>
      if forallb (fun a => bool_decide (shape a = shape a0)) arrays then
        Ok {| dtype_of := dtype_of a0;
              shape := length arrays :: shape a0;
              item := fun idx =>
                match idx with
                | i :: rest =>
                    match arrays !! i with
                    | Some a => item a rest
                    | None => item a0 rest
                    end
                | [] => item a0 []
                end |}
      else Raise ValueError
  end.

(** ** torch tensors

    The tensors of the script are matrices: a hidden state is [N x d], a
    projection [N x d'], a relation matrix [N x N]. *)

Record tensor := {
  nrows : nat;
  ncols : nat;
  ent : nat -> nat -> fval
}.

(** [X.transpose(0, 1)] *)
Definition transpose (X : tensor) : tensor :=
  {| nrows := ncols X; ncols := nrows X; ent := fun i j => ent X j i |}.

(** The sum over [k < n] of [f k * g k]. *)
Definition dot (n : nat) (f g : nat -> fval) : fval :=
  fsum (map (fun k => fmul (f k) (g k)) (seq 0 n)).

(** [torch.matmul(A, B)] on matrices: the inner dimensions must agree. *)
Definition matmul (A B : tensor) : result tensor :=
  if decide (ncols A = nrows B) then
    Ok {| nrows := nrows A;
          ncols := ncols B;
          ent := fun i j => dot (ncols A) (fun k => ent A i k) (fun k => ent B k j) |}
  else Raise RuntimeError.

(** [factor * T] for a Python float [factor]. *)
Definition scale (factor : fval) (T : tensor) : tensor :=
  {| nrows := nrows T; ncols := ncols T; ent := fun i j => fmul factor (ent T i j) |}.

(** The Euclidean norm of row [i], in exact arithmetic: the overflow of
    the sum of squares, which float32 meets above [float32_max], is not
    modelled, and a property that it would break excludes it. *)
Definition row_norm (X : tensor) (i : nat) : fval :=
  fsqrt (dot (ncols X) (fun k => ent X i k) (fun k => ent X i k)).

(** [Tensor.clamp_min(eps)]: the larger of the value and [eps]; NaN stays NaN. *)
Definition clamp_min (a : fval) (eps : R) : fval :=
  match a with
  | Some x => Some (Rmax x eps)
  | None => None
  end.

(** The default [eps] of [torch.nn.functional.normalize]. *)
Definition normalize_eps : R := (/ 10 ^ 12)%R.

(** The largest finite float32 number, [(2 - 2^-23) * 2^127]. *)
Definition float32_max : R := ((2 - / 2 ^ 23) * 2 ^ 127)%R.

(** [F.normalize(X, dim=-1)], with torch's defaults [p=2] and [eps=1e-12]:
    torch documents it as [v / max(norm(v), eps)] for every row [v], and
    computes it as [X / X.norm(2, dim, keepdim=True).clamp_min(eps)]. *)
Definition F_normalize (X : tensor) : tensor :=
  {| nrows := nrows X;
     ncols := ncols X;
     ent := fun i j => fdiv (ent X i j) (clamp_min (row_norm X i) normalize_eps) |}.

(** The real sum over [k < n] of [f k], and the entries of a tensor read
    as reals (0 for an undefined entry), to state what the tensor
    operations compute on finite tensors. *)
Definition rsum (n : nat) (f : nat -> R) : R :=
  foldr Rplus 0%R (map f (seq 0 n)).

Definition real_ent (X : tensor) (i j : nat) : R := default 0%R (ent X i j).

(** The square of the Euclidean norm of row [i] of a finite tensor. *)
Definition row_sumsq (X : tensor) (i : nat) : R :=
  rsum (ncols X) (fun k => real_ent X i k * real_ent X i k)%R.

(** Two inputs at the edge of [F.normalize]: a row of norm [1e-13], and
    a zero row next to the row [(3, 4)]. *)
Definition tiny_row : tensor :=
  {| nrows := 1; ncols := 1; ent := fun _ _ => Some (/ 10 ^ 13)%R |}.

Definition zero_row : tensor :=
  {| nrows := 2;
     ncols := 2;
     ent := fun i j =>
       match i, j with
       | 1, 0 => Some 3%R
       | 1, 1 => Some 4%R
       | _, _ => Some 0%R
       end |}.

(** A hidden state with the rows [(3, 4)] and [(1, 0)]. *)
Definition two_rows : tensor :=
  {| nrows := 2;
     ncols := 2;
     ent := fun i j =>
       match i, j with
       | 0, 0 => Some 3%R
       | 0, 1 => Some 4%R
       | 1, 0 => Some 1%R
       | _, _ => Some 0%R
       end |}.

(** A hidden state of one row, [(1, 2, 3, 4)]. *)
Definition four_cols : tensor :=
  {| nrows := 1; ncols := 4; ent := fun _ j => Some (INR (S j)) |}.

(** ** Matrix Builder *)

(** One turn of the loop of [compute_cos_similarities]. *)
Definition cos_similarity (X : tensor) : result tensor :=
  let X_unit := F_normalize X in
  matmul X_unit (transpose X_unit).

Definition compute_cos_similarities (hidden_states : list tensor)
  : result (list tensor) :=
  mapM cos_similarity hidden_states.

(** A query or key projector of one layer: it maps an [N x d] tensor to an
    [N x d'] one, and like any call it may raise. *)
Definition projector := tensor -> result tensor.

(** [n ** -0.5] for a Python integer [n]: Python raises on [0]. *)
Definition pow_neg_half (n : nat) : result R :=
  if decide (n = 0) then Raise ZeroDivisionError
  else Ok (Rpower (INR n) (- / 2)).

(** The projector that returns its input. *)
Definition identity_projector : projector := fun X => Ok X.

(** One turn of the loop of [compute_attention_logits]. *)
Definition attention_logit (X : tensor) (query key : projector) : result tensor :=
  Q ← query X;
  K ← key X;
  factor ← pow_neg_half (ncols K);
  QKt ← matmul Q (transpose K);
  Ok (scale (Some factor) QKt).

(** [zip(hidden_states, queries, keys)] stops at the end of the shortest
    of the three. *)
Definition zip3 {A B C} (l1 : list A) (l2 : list B) (l3 : list C)
  : list (A * (B * C)) :=
  zip l1 (zip l2 l3).

Definition compute_attention_logits (hidden_states : list tensor)
    (queries keys : list projector) : result (list tensor) :=
  mapM (fun '(X, (query, key)) => attention_logit X query key)
       (zip3 hidden_states queries keys).

(** ** The numeric libraries

    What the script takes from scikit-learn, hdbscan and the random number
    generators of Python and torch.  The numeric procedures themselves are
    left open; [rng] is the state of the random number generators. *)

Class Libraries := {
  rng : Type;
  (** a random number below the bound, for a positive bound *)
  randrange : rng -> nat -> nat * rng;
  (** [torch.randint(high, (size,))] *)
  randints : rng -> nat -> nat -> list nat * rng;
  (** the projection of the rows on the first [n_components] principal
      components: one row per row *)
  pca_project : nat -> tensor -> tensor;
  pca_project_nrows : forall n X, nrows (pca_project n X) = nrows X;
  (** [HDBSCAN(min_cluster_size=m).fit(X).labels_]: one label per row *)
  hdbscan_labels : nat -> tensor -> list Z;
  hdbscan_labels_length : forall m X, length (hdbscan_labels m X) = nrows X;
  silhouette_score : tensor -> list Z -> fval;
  validity_index : tensor -> list Z -> fval;
  (** the [n x 2] coordinates t-SNE gives the rows of a matrix *)
  tsne_embed : rng -> tensor -> tensor * rng
}.

(** scikit-learn validates its input first: a matrix with a NaN or an
    infinite entry is refused with a [ValueError]. *)
Definition all_finite (X : tensor) : bool :=
  forallb (fun i => forallb (fun j => bool_decide (is_Some (ent X i j)))
                            (seq 0 (ncols X)))
          (seq 0 (nrows X)).

(** [PCA(n_components=n, random_state=RANDOM_SEED).fit_transform(X)]:
    scikit-learn refuses, with a [ValueError], a number of components
    above [min(n_samples, n_features)]. *)
Definition PCA_fit_transform `{Libraries} (n_components : nat) (X : tensor)
  : result tensor :=
  if all_finite X && bool_decide (n_components <= Nat.min (nrows X) (ncols X))
  then Ok (pca_project n_components X)
  else Raise ValueError.

(** [TSNE(n_components=2, perplexity=p).fit_transform(X)]: scikit-learn
    requires the perplexity to be less than the number of rows, and its
    default initialisation, by the first two principal components,
    requires two columns at least. *)
Definition TSNE_fit_transform `{Libraries} (perplexity : nat) (g : rng) (X : tensor)
  : result (tensor * rng) :=
  if all_finite X && bool_decide (perplexity < nrows X) && bool_decide (2 <= ncols X)
  then Ok (tsne_embed g X)
  else Raise ValueError.

(** [labels.max()]: numpy raises on an empty array. *)
Definition array_max (labels : list Z) : result Z :=
  match labels with
  | [] => Raise ValueError
  | l :: rest => Ok (foldr Z.max l rest)
  end.

(** [(labels == -1).sum()] *)
Definition count_outliers (labels : list Z) : nat :=
  length (filter (fun l => l = (-1)%Z) labels).

(** ** Structure Analyzer *)

(** One turn of the loop of [compute_clustering]; [X.astype(np.float64)]
    changes no value in exact arithmetic. *)
Definition cluster_layer `{Libraries} (X : tensor) : result (list Z * list fval) :=
  X' ← PCA_fit_transform 32 X;
  let labels := hdbscan_labels 3 X' in
  m ← array_max labels;
  let num_clusters := (m + 1)%Z in
  let outlier_rate :=
    fdiv (Some (INR (count_outliers labels))) (Some (INR (length labels))) in
  let silh_score :=
    if bool_decide (1 < num_clusters)%Z then silhouette_score X' labels
    else Some 1%R in
  let dbcv_score :=
    if bool_decide (1 < num_clusters)%Z then validity_index X' labels
    else Some 1%R in
  Ok (labels, [Some (IZR num_clusters); outlier_rate; silh_score; dbcv_score]).

Definition compute_clustering `{Libraries} (data : list tensor)
  : result (list (list Z) * list (list fval)) :=
  per_layer ← mapM cluster_layer data;
  Ok (map fst per_layer, map snd per_layer).

Fixpoint compute_tsne_embeddings `{Libraries} (g : rng) (data : list tensor)
  : result (list tensor * rng) :=
  match data with
  | [] => Ok ([], g)
  | X :: rest =>
      '(Y, g') ← TSNE_fit_transform 5 g X;
      '(Ys, g'') ← compute_tsne_embeddings g' rest;
      Ok (Y :: Ys, g'')
  end.

(** ** Corpus Provider: [get_random_input] *)

Record Tokeniser := {
  vocab_size : nat;
  model_max_length : nat;
  (** [tokeniser(text, truncation=True).input_ids], a batch of one row *)
  tokenise : string -> list nat;
  decode : list nat -> string;
  (** decodes every token on its own *)
  batch_decode : list nat -> list string
}.

Record sample := {
  input_ids : list nat;
  original_text : string;
  tokenised_text : string
}.

Definition MIN_NUM_TOKENS : nat := 300.

(** The text one turn of the loop draws: a random text of the dataset, or
    the decoding of random tokens when there is no dataset.
    [torch.randint] raises on an empty range. *)
Definition draw_text `{Libraries} (dataset : option (list string))
    (tokeniser : Tokeniser) (g : rng) : result (string * rng) :=
  match dataset with
  | Some texts =>
      if decide (length texts = 0) then Raise RuntimeError
      else
        let '(index, g') := randrange g (length texts) in
        match texts !! index with
        | Some text => Ok (text, g')
        | None => Raise IndexError
        end
  | None =>
      if decide (vocab_size tokeniser = 0) then Raise RuntimeError
      else
        let '(ids, g') := randints g (vocab_size tokeniser) (model_max_length tokeniser) in
        Ok (decode tokeniser ids, g')
  end.

(** What [get_random_input] returns once its loop has left with [text]. *)
Definition make_sample (tokeniser : Tokeniser) (text : string) : sample :=
  let ids := tokenise tokeniser text in
  {| input_ids := ids;
     original_text := text;
     tokenised_text :=
       String.append "(" (String.append (String.concat ")(" (batch_decode tokeniser ids)) ")") |}.

(** [while True: ...] run for at most [fuel] turns; [None] when the loop
    has not left by then. *)
Fixpoint get_random_input `{Libraries} (fuel : nat) (dataset : option (list string))
    (tokeniser : Tokeniser) (g : rng) : option (result (sample * rng)) :=
  match fuel with
  | 0 => None
  | S fuel' =>
      match draw_text dataset tokeniser g with
      | Raise e => Some (Raise e)
      | Ok (text, g') =>
          if bool_decide (MIN_NUM_TOKENS <= length (tokenise tokeniser text))
          then Some (Ok (make_sample tokeniser text, g'))
          else get_random_input fuel' dataset tokeniser g'
      end
  end.

(** The same loop as a relation: [returns dataset tokeniser g s g'] when
    the loop started in [g] leaves with the sample [s] in state [g']. *)
Inductive returns `{Libraries} (dataset : option (list string)) (tokeniser : Tokeniser)
  : rng -> sample -> rng -> Prop :=
  | returns_break g text g' :
      draw_text dataset tokeniser g = Ok (text, g') ->
      MIN_NUM_TOKENS <= length (tokenise tokeniser text) ->
      returns dataset tokeniser g (make_sample tokeniser text) g'
  | returns_again g text g' s g'' :
      draw_text dataset tokeniser g = Ok (text, g') ->
      length (tokenise tokeniser text) < MIN_NUM_TOKENS ->
      returns dataset tokeniser g' s g'' ->
      returns dataset tokeniser g s g''.

(** ** Representation Provider *)

(** [T[..., lo:hi]] *)
Definition slice_cols (T : tensor) (lo hi : nat) : tensor :=
  {| nrows := nrows T;
     ncols := Nat.min hi (ncols T) - Nat.min lo (ncols T);
     ent := fun i j => ent T i (lo + j) |}.

Inductive model_type := albert | bert | other_model.

Record Model := {
  type_of : model_type;
  num_hidden_layers : nat;
  hidden_size : nat;
  num_attention_heads : nat;
  (** the query and key layers of the attention of every encoder layer
      (of the one shared layer, for albert) *)
  attention_queries : list projector;
  attention_keys : list projector;
  (** the hidden states the model returns for an input, from the input
      embedding to the last layer, the batch dimension squeezed *)
  forward_hidden_states : list nat -> list tensor
}.

Definition head_extractor (head head_ndim : nat) (layer : projector) : projector :=
  fun x => T ← layer x; Ok (slice_cols T (head * head_ndim) ((head + 1) * head_ndim)).

Definition extract_queries_and_keys (model : Model) (head : nat)
  : result (list projector * list projector) :=
  if decide (num_attention_heads model = 0) then Raise ZeroDivisionError
  else
    let head_ndim := hidden_size model / num_attention_heads model in
    match type_of model with
    | albert =>
        match attention_queries model, attention_keys model with
        | q :: _, k :: _ =>
            Ok (replicate (num_hidden_layers model) (head_extractor head head_ndim q),
                replicate (num_hidden_layers model) (head_extractor head head_ndim k))
        | _, _ => Raise IndexError
        end
    | bert =>
        Ok (map (head_extractor head head_ndim) (attention_queries model),
            map (head_extractor head head_ndim) (attention_keys model))
    | other_model => Raise NotImplementedError
    end.

(** ** Sample Pipeline and Population Aggregator: [run_experiment] *)

(** Truncation toward zero, the conversion of a float to an integer. *)
Definition trunc (x : R) : Z :=
  if Rle_dec 0 x then Int_part x else (- Int_part (- x))%Z.

(** A float stored as an [int64]: truncated, and [-2^63] when it is
    undefined or when its truncation does not fit. *)
Definition to_int64 (v : fval) : Z :=
  match v with
  | Some x =>
      if decide (- 2 ^ 63 <= trunc x < 2 ^ 63)%Z then trunc x else (- 2 ^ 63)%Z
  | None => (- 2 ^ 63)%Z
  end.

(** numpy scalars as [fval]: conversions between float types change
    nothing in exact arithmetic, a float stored as an integer goes
    through [to_int64]. *)
Definition fval_cast (from to : dtype) (v : fval) : fval :=
  if decide (from = to) then v
  else match to with
       | int64 => Some (IZR (to_int64 v))
       | _ => v
       end.

Lemma fval_cast_same (d : dtype) (v : fval) : fval_cast d d v = v.
Proof. unfold fval_cast. destruct (decide (d = d)); [reflexivity | contradiction]. Qed.

#[global] Instance fval_scalars : Scalars fval := {|
  of_int := fun _ z => Some (IZR z);
  cast := fval_cast;
  cast_same := fval_cast_same
|}.

(** [T.numpy(force=True)] *)
Definition to_numpy (T : tensor) : ndarray fval :=
  {| dtype_of := float32;
     shape := [nrows T; ncols T];
     item := fun idx =>
       match idx with
       | [i; j] => ent T i j
       | _ => None
       end |}.

(** The label array of one layer. *)
Definition labels_array (labels : list Z) : ndarray fval :=
  {| dtype_of := int64;
     shape := [length labels];
     item := fun idx =>
       match idx with
       | [i] => (fun l => IZR l) <$> (labels !! i)
       | _ => None
       end |}.

(** [np.array([num_clusters, outlier_rate, silh_score, dbcv_score])] *)
Definition metrics_array (metrics : list fval) : ndarray fval :=
  {| dtype_of := float64;
     shape := [length metrics];
     item := fun idx =>
       match idx with
       | [i] => mjoin (metrics !! i)
       | _ => None
       end |}.

(** [results = defaultdict(list)] and [results[key].append(value)] *)
Definition results_dict := gmap string (list (ndarray fval)).

Definition append_result (results : gmap string (list (ndarray fval)))
    (key : string) (value : ndarray fval) : gmap string (list (ndarray fval)) :=
  <[key := default [] (results !! key) ++ [value]]> results.

(** [hidden_states[1:] if target == "X" else logit_matrices] *)
Definition target_data (target : string) (hidden_states logit_matrices : list tensor)
  : list tensor :=
  if decide (target = "X") then drop 1 hidden_states else logit_matrices.

(** The body of [for target in ["token", "attention_logit"]]. *)
Definition analyse_target `{Libraries} (hidden_states logit_matrices : list tensor)
    (st : gmap string (list (ndarray fval)) * rng) (target : string)
  : result (gmap string (list (ndarray fval)) * rng) :=
  let '(results, g) := st in
  let data := target_data target hidden_states logit_matrices in
  '(labels, metrics) ← compute_clustering data;
  '(tsnes, g') ← compute_tsne_embeddings g data;
  stacked_labels ← np_stack (map labels_array labels);
  let results := append_result results (String.append target "_cluster_labels") stacked_labels in
  stacked_metrics ← np_stack (map metrics_array metrics);
  let results := append_result results (String.append target "_cluster_metrics") stacked_metrics in
  stacked_tsnes ← np_stack (map to_numpy tsnes);
  let results := append_result results (String.append target "_t-SNE_embeddings") stacked_tsnes in
  Ok (results, g').

(** [for x in xs: st = body(st, x)] with a body that may raise. *)
Fixpoint for_each {S A} (body : S -> A -> result S) (xs : list A) (st : S) : result S :=
  match xs with
  | [] => Ok st
  | x :: rest => st' ← body st x; for_each body rest st'
  end.

(** [random.choice(range(n))] *)
Definition random_choice `{Libraries} (g : rng) (n : nat) : result (nat * rng) :=
  if decide (n = 0) then Raise IndexError else Ok (randrange g n).

(** One turn of the loop over the samples, from the model's output on:
    what it adds to [results]. *)
Definition process_sample `{Libraries} (model : Model) (input : sample)
    (st : gmap string (list (ndarray fval)) * rng)
  : result (gmap string (list (ndarray fval)) * rng) :=
  let '(results, g) := st in
  let hidden_states := forward_hidden_states model (input_ids input) in
  sim_matrices ← compute_cos_similarities (drop 1 hidden_states);
  stacked_sims ← np_stack (map to_numpy sim_matrices);
  let results := append_result results "token_similarity" stacked_sims in
  '(head, g) ← random_choice g (num_attention_heads model);
  '(queries, keys) ← extract_queries_and_keys model head;
  logit_matrices ←
    compute_attention_logits (take (length hidden_states - 1) hidden_states) queries keys;
  stacked_logits ← np_stack (map to_numpy logit_matrices);
  let results := append_result results "attention_logits" stacked_logits in
  for_each (analyse_target hidden_states logit_matrices)
           ["token"; "attention_logit"] (results, g).

(** A row of the overview table. *)
Record overview_row := {
  row_original_text : string;
  row_tokenised_text : string;
  num_tokens : nat
}.

(** The loop over the samples; every call of [get_random_input] gets
    [fuel] turns, and [None] says one of them has not returned by then. *)
Fixpoint sample_loop `{Libraries} (fuel : nat) (dataset : option (list string))
    (tokeniser : Tokeniser) (model : Model) (sample_size : nat)
    (overview : list overview_row) (st : gmap string (list (ndarray fval)) * rng)
  : option (result (list overview_row * (gmap string (list (ndarray fval)) * rng))) :=
  match sample_size with
  | 0 => Some (Ok (overview, st))
  | S remaining =>
      match get_random_input fuel dataset tokeniser (snd st) with
      | None => None
      | Some (Raise e) => Some (Raise e)
      | Some (Ok (input, g)) =>
          let row := {| row_original_text := original_text input;
                        row_tokenised_text := tokenised_text input;
                        num_tokens := length (input_ids input) |} in
          match process_sample model input (fst st, g) with
          | Raise e => Some (Raise e)
          | Ok st' =>
              sample_loop fuel dataset tokeniser model remaining (overview ++ [row]) st'
          end
      end
  end.

(** What [run_experiment] writes: the overview table and, for every key
    of [results], the padded stack of its arrays. *)
Definition run_experiment `{Libraries} (fuel : nat) (dataset : option (list string))
    (tokeniser : Tokeniser) (model : Model) (sample_size : nat) (g : rng)
  : option (result (list overview_row * list (string * ndarray fval))) :=
  match sample_loop fuel dataset tokeniser model sample_size [] (∅, g) with
  | None => None
  | Some (Raise e) => Some (Raise e)
  | Some (Ok (overview, (results, _))) =>
      Some (files ← mapM (fun '(key, val) =>
                            match val with
                            | [] => Ok []
                            | _ => arr ← stack_padded val 0; Ok [(key, arr)]
                            end)
                         (map_to_list results);
            Ok (overview, concat files))
  end.

(** ** Output directory *)

(** [make_outdir]: the directory of a run, named after the dataset
    ([None] when there is no dataset), the model's name, the two switches
    and the number of layers.  Creating the directory is left out. *)
Definition make_outdir (model : Model) (name_or_path : string)
    (dataset_name : option string) (random_params no_dense_layers : bool) : string :=
  let run_id := default "uniform" dataset_name in
  let run_id := String.append run_id (String.append "_" name_or_path) in
  let run_id :=
    String.append run_id
      (String.append "_params-" (if random_params then "random" else "trained")) in
  let run_id :=
    String.append run_id
      (String.append "_dense-" (if no_dense_layers then "off" else "on")) in
  let run_id :=
    String.append run_id
      (String.append "_layers-" (pretty (num_hidden_layers model))) in
  String.append "rawsults/" run_id.

(** The keys [run_experiment] files its arrays under. *)
Definition result_keys : list string :=
  ["token_similarity"; "attention_logits";
   "token_cluster_labels"; "token_cluster_metrics"; "token_t-SNE_embeddings";
   "attention_logit_cluster_labels"; "attention_logit_cluster_metrics";
   "attention_logit_t-SNE_embeddings"].

(** The number of arrays filed under a key. *)
Definition entry_count (results : gmap string (list (ndarray fval))) (key : string)
  : nat :=
  length (default [] (results !! key)).

(** What [run_experiment] does with one key of [results]. *)
Definition stack_entry (kv : string * list (ndarray fval))
  : result (list (string * ndarray fval)) :=
  match kv.2 with
  | [] => Ok []
  | _ => arr ← stack_padded kv.2 0; Ok [(kv.1, arr)]
  end.

(** ** Stand-ins

    A stand-in for the numeric libraries and for a tokeniser, to run the
    definitions on concrete inputs: the random numbers count up, the
    principal components and the t-SNE coordinates are the leading
    columns, the first row is an outlier and the other rows share one
    cluster. *)

Definition toy_labels (n : nat) : list Z :=
  match n with
  | 0 => []
  | S n' => (-1)%Z :: replicate n' 0%Z
  end.

Lemma toy_labels_length (n : nat) : length (toy_labels n) = n.
Proof. destruct n; simpl; [reflexivity|]. by rewrite length_replicate. Qed.

Definition toy_libraries : Libraries := {|
  rng := nat;
  randrange := fun g n => (g mod n, S g);
  randints := fun g high size => (replicate size (g mod high), S g);
  pca_project := fun n X => slice_cols X 0 n;
  pca_project_nrows := fun _ _ => eq_refl;
  hdbscan_labels := fun _ X => toy_labels (nrows X);
  hdbscan_labels_length := fun _ X => toy_labels_length (nrows X);
  silhouette_score := fun _ _ => Some 0%R;
  validity_index := fun _ _ => Some 0%R;
  tsne_embed := fun g X => (slice_cols X 0 2, S g)
|}.

Definition toy_tokeniser : Tokeniser := {|
  vocab_size := 2;
  model_max_length := 512;
  tokenise := fun text => replicate (298 + String.length text) 0;
  decode := fun ids => "x";
  batch_decode := map (fun _ => "a")
|}.

(** The [n x m] matrix of ones. *)
Definition ones (n m : nat) : tensor :=
  {| nrows := n; ncols := m; ent := fun _ _ => Some 1%R |}.

(** A model of one layer and one head over four dimensions, whose query
    and key layers return their input and whose hidden states are all
    ones, one row for every token of the input. *)
Definition toy_model : Model := {|
  type_of := bert;
  num_hidden_layers := 1;
  hidden_size := 4;
  num_attention_heads := 1;
  attention_queries := [identity_projector];
  attention_keys := [identity_projector];
  forward_hidden_states := fun ids => [ones (length ids) 4; ones (length ids) 4]
|}.

(** A sample of forty tokens. *)
Definition toy_sample : sample :=
  {| input_ids := replicate 40 0; original_text := "text"; tokenised_text := "(t)" |}.

(** * Properties *)

(** ** The error monad *)

Section result_monad.
Context {A B : Type} (f : A -> result B).

Lemma mapM_Ok_Forall2 (l : list A) (k : list B) :
  mapM f l = Ok k <-> Forall2 (fun x y => f x = Ok y) l k.
Proof.
  split.
  - revert k. induction l as [|x l IH]; intros k Hk; simpl in Hk.
    + injection Hk as <-. constructor.
    + destruct (f x) as [y|e] eqn:Hx; simpl in Hk; [|discriminate].
      destruct (mapM f l) as [k'|e] eqn:Hl; simpl in Hk; [|discriminate].
      injection Hk as <-. constructor; auto.
  - induction 1 as [|x y l k Hx _ IH]; simpl; [reflexivity|].
    rewrite Hx. simpl. rewrite IH. reflexivity.
Qed.

Lemma mapM_Ok_map (g : A -> B) (l : list A) :
  Forall (fun x => f x = Ok (g x)) l -> mapM f l = Ok (map g l).
Proof.
  intros Hl. apply mapM_Ok_Forall2.
  induction Hl; simpl; constructor; auto.
Qed.

Lemma mapM_Ok_length (l : list A) (k : list B) :
  mapM f l = Ok k -> length k = length l.
Proof.
  intros Hk. apply mapM_Ok_Forall2 in Hk.
  symmetry. eapply Forall2_length, Hk.
Qed.

Lemma mapM_Ok_lookup (l : list A) (k : list B) (i : nat) (x : A) :
  mapM f l = Ok k -> l !! i = Some x -> exists y, k !! i = Some y /\ f x = Ok y.
Proof.
  intros Hk Hx. apply mapM_Ok_Forall2 in Hk.
  destruct (Forall2_lookup_l _ _ _ _ _ Hk Hx) as (y & Hy & Hf). eauto.
Qed.

Lemma mapM_Raise_elem (l : list A) (e : exn) :
  mapM f l = Raise e -> exists x, x ∈ l /\ f x = Raise e.
Proof.
  induction l as [|x l IH]; simpl; [discriminate|].
  destruct (f x) as [y|e'] eqn:Hx; simpl.
  - destruct (mapM f l) as [k|e'] eqn:Hl; simpl; [discriminate|].
    intros [= ->]. destruct IH as (x' & Hin & Hx'); [reflexivity|].
    exists x'. split; [by apply list_elem_of_further | done].
  - intros [= ->]. exists x. split; [by apply list_elem_of_here | done].
Qed.

End result_monad.

(** ** [stack_padded] *)

Section stack_padded_facts.
Context {V : Type} `{Scalars V}.

Lemma max_extent_Ok (l : list (ndarray V)) (dim : nat) :
  l <> [] ->
  Forall (fun a => dim < ndim a) l ->
  max_extent l dim = Ok (list_max (map (fun a => nth dim (shape a) 0) l)).
Proof.
  intros Hne Hl. unfold max_extent.
  rewrite (mapM_Ok_map _ (fun a => nth dim (shape a) 0)).
  - simpl. destruct l; [contradiction | reflexivity].
  - eapply Forall_impl; [exact Hl|]. intros a Ha. unfold shape_at, ndim in *.
    destruct (shape a !! dim) as [n|] eqn:Hn.
    + f_equal. symmetry. apply nth_lookup_Some with (d := 0) in Hn. exact Hn.
    + apply lookup_ge_None in Hn. lia.
Qed.

Lemma target_dims_Ok (l : list (ndarray V)) (r : nat) :
  l <> [] ->
  Forall (fun a => ndim a = r) l ->
  mapM (max_extent l) (seq 0 r) = Ok (max_shape r l).
Proof.
  intros Hne Hl. unfold max_shape. apply mapM_Ok_map.
  apply Forall_forall. intros dim Hdim.
  apply list_elem_of_In, in_seq in Hdim.
  apply max_extent_Ok; [exact Hne|].
  eapply Forall_impl; [exact Hl|]. simpl. intros a ->. lia.
Qed.

Lemma max_shape_length (r : nat) (l : list (ndarray V)) :
  length (max_shape r l) = r.
Proof. unfold max_shape. rewrite length_map, length_seq. reflexivity. Qed.

Lemma max_shape_nth (r : nat) (l : list (ndarray V)) (dim : nat) :
  dim < r ->
  nth dim (max_shape r l) 0 = list_max (map (fun a => nth dim (shape a) 0) l).
Proof.
  intros Hdim. unfold max_shape.
  rewrite (nth_indep _ 0 ((fun dim => list_max (map (fun a => nth dim (shape a) 0) l)) 0))
    by (rewrite length_map, length_seq; exact Hdim).
  rewrite (map_nth (fun dim => list_max (map (fun a => nth dim (shape a) 0) l))).
  rewrite seq_nth by exact Hdim. reflexivity.
Qed.

Lemma list_max_upper (ns : list nat) (n : nat) : In n ns -> n <= list_max ns.
Proof.
  intros Hn. assert (Hle : list_max ns <= list_max ns) by lia.
  apply list_max_le in Hle. rewrite List.Forall_forall in Hle. auto.
Qed.

Lemma list_max_attained (ns : list nat) : ns <> [] -> In (list_max ns) ns.
Proof.
  induction ns as [|n ns IH]; [contradiction|]. intros _. simpl.
  destruct ns as [|m ns'].
  - left. simpl. lia.
  - destruct (Nat.max_spec n (list_max (m :: ns'))) as [[_ ->]|[_ ->]].
    + right. apply IH. discriminate.
    + left. reflexivity.
Qed.

(** [max_shape] is the least upper bound of the shapes, dimension by
    dimension. *)
Lemma max_shape_is_maximum (r : nat) (l : list (ndarray V)) (dim : nat) :
  l <> [] -> dim < r ->
  (forall a, a ∈ l -> nth dim (shape a) 0 <= nth dim (max_shape r l) 0) /\
  (exists a, a ∈ l /\ nth dim (shape a) 0 = nth dim (max_shape r l) 0).
Proof.
  intros Hne Hdim. rewrite max_shape_nth by exact Hdim. split.
  - intros a Ha. apply list_max_upper. apply in_map_iff.
    exists a. split; [reflexivity | by apply list_elem_of_In].
  - assert (Hm : map (fun a => nth dim (shape a) 0) l <> [])
      by (destruct l; [contradiction | discriminate]).
    apply list_max_attained in Hm. apply in_map_iff in Hm as (a & Ha & Hin).
    exists a. split; [by apply list_elem_of_In | exact Ha].
Qed.

End stack_padded_facts.

Section stack_padded_loop.
Context {V : Type} `{Scalars V}.

Lemma assign_all_spec (l : list (ndarray V)) :
  forall (i r : nat) (st : ndarray V),
  ndim st = S r ->
  Forall (fun a => ndim a = r) l ->
  exists out,
    assign_all i l st = Ok out /\
    dtype_of out = dtype_of st /\
    shape out = shape st /\
    forall i' idx, item out (i' :: idx) = slot_item i l st i' idx.
Proof.
  induction l as [|a l IH]; intros i r st Hst Hl.
  - exists st. repeat split; try reflexivity.
    intros i' idx. unfold slot_item. destruct (decide (i <= i')); reflexivity.
  - apply Forall_cons in Hl as [Ha Hl]. simpl. unfold assign_slot.
    destruct (decide (S (ndim a) = ndim st)) as [_|Hne]; [|congruence].
    simpl.
    match goal with |- context [assign_all (S i) l ?s] => set (st1 := s) end.
    destruct (IH (S i) r st1) as (out & Hout & Hdt & Hsh & Hitem); [exact Hst|exact Hl|].
    exists out. split; [exact Hout|]. split; [exact Hdt|]. split; [exact Hsh|].
    intros i' idx. rewrite Hitem. unfold slot_item. simpl.
    destruct (decide (S i <= i')) as [Hgt|Hle].
    + destruct (decide (i <= i')) as [_|?]; [|lia].
      replace (i' - i) with (S (i' - S i)) by lia. simpl.
      replace (i' =? i) with false by (symmetry; apply Nat.eqb_neq; lia).
      reflexivity.
    + destruct (decide (i <= i')) as [Hge|Hlt].
      * assert (i' = i) as -> by lia. rewrite Nat.sub_diag, Nat.eqb_refl. simpl.
        reflexivity.
      * replace (i' =? i) with false by (symmetry; apply Nat.eqb_neq; lia).
        reflexivity.
Qed.

(** The result of [stack_padded] on a non-empty list of arrays of one
    rank. *)
Lemma stack_padded_Ok (a0 : ndarray V) (rest : list (ndarray V)) (pad_value : Z) :
  Forall (fun a => ndim a = ndim a0) rest ->
  exists out,
    stack_padded (a0 :: rest) pad_value = Ok out /\
    dtype_of out = dtype_of a0 /\
    shape out = length (a0 :: rest) :: max_shape (ndim a0) (a0 :: rest) /\
    forall i a idx, (a0 :: rest) !! i = Some a ->
      item out (i :: idx) =
        if in_region (shape a) idx
        then cast (dtype_of a) (dtype_of a0) (item a idx)
        else of_int (dtype_of a0) pad_value.
Proof.
  intros Hrest.
  assert (Hall : Forall (fun a => ndim a = ndim a0) (a0 :: rest))
    by (constructor; [reflexivity | exact Hrest]).
  unfold stack_padded.
  rewrite (target_dims_Ok (a0 :: rest) (ndim a0)) by (discriminate || exact Hall).
  cbn [mbind result_bind].
  match goal with |- context [assign_all 0 _ ?s] => set (st := s) end.
  destruct (assign_all_spec (a0 :: rest) 0 (ndim a0) st) as (out & Hout & Hdt & Hsh & Hitem).
  { unfold ndim, st. simpl. rewrite max_shape_length. reflexivity. }
  { exact Hall. }
  exists out. split; [exact Hout|]. split; [exact Hdt|]. split; [exact Hsh|].
  intros i a idx Ha. rewrite Hitem. unfold slot_item.
  destruct (decide (0 <= i)) as [_|?]; [|lia].
  rewrite Nat.sub_0_r, Ha. reflexivity.
Qed.

End stack_padded_loop.

(** C3. On a non-empty list of [S] arrays of one rank, [stack_padded]
    returns an array of the element type of the first array and of shape
    [S :: max_shape], where [max_shape] is the dimension-wise maximum of
    the shapes; slot [i] holds the [i]-th array in its top-left region
    (converted to the element type of the first array, which copies it
    when the types agree) and the fill value 0 elsewhere.  On arrays of
    shapes [3,3], [5,5] and [2,2] the shape is [3,5,5] and slot 0 is the
    first array in its top-left 3x3 region and 0 elsewhere. *)
Theorem stack_padded_spec {V : Type} `{Scalars V}
    (a0 : ndarray V) (rest : list (ndarray V)) :
  Forall (fun a => ndim a = ndim a0) rest ->
  (exists out,
    stack_padded (a0 :: rest) 0 = Ok out /\
    dtype_of out = dtype_of a0 /\
    shape out = length (a0 :: rest) :: max_shape (ndim a0) (a0 :: rest) /\
    (forall dim, dim < ndim a0 ->
      (forall a, a ∈ a0 :: rest ->
         nth dim (shape a) 0 <= nth dim (max_shape (ndim a0) (a0 :: rest)) 0) /\
      (exists a, a ∈ a0 :: rest /\
         nth dim (shape a) 0 = nth dim (max_shape (ndim a0) (a0 :: rest)) 0)) /\
    (forall i a idx, (a0 :: rest) !! i = Some a ->
      item out (i :: idx) =
        if in_region (shape a) idx
        then cast (dtype_of a) (dtype_of a0) (item a idx)
        else of_int (dtype_of a0) 0) /\
    (forall i a idx, (a0 :: rest) !! i = Some a ->
      dtype_of a = dtype_of a0 -> in_region (shape a) idx = true ->
      item out (i :: idx) = item a idx)) /\
  (forall a b c : ndarray V,
    shape a = [3; 3] -> shape b = [5; 5] -> shape c = [2; 2] ->
    exists out,
      stack_padded [a; b; c] 0 = Ok out /\
      dtype_of out = dtype_of a /\
      shape out = [3; 5; 5] /\
      forall i j,
        item out [0; i; j] =
          if (i <? 3) && (j <? 3) then item a [i; j] else of_int (dtype_of a) 0).
Proof.
  intros Hrest. split.
  - destruct (stack_padded_Ok a0 rest 0 Hrest) as (out & Hout & Hdt & Hsh & Hitem).
    exists out. repeat split; try assumption.
    + apply max_shape_is_maximum; [discriminate | assumption].
    + apply max_shape_is_maximum; [discriminate | assumption].
    + intros i a idx Ha Hda Hin. rewrite (Hitem i a idx Ha), Hin, Hda.
      apply cast_same.
  - intros a b c Ha Hb Hc.
    destruct (stack_padded_Ok a [b; c] 0) as (out & Hout & Hdt & Hsh & Hitem).
    { repeat constructor; unfold ndim; rewrite ?Ha, ?Hb, ?Hc; reflexivity. }
    exists out. split; [exact Hout|]. split; [exact Hdt|]. split.
    + rewrite Hsh. unfold max_shape, ndim. rewrite Ha. simpl. rewrite Ha, Hb, Hc.
      reflexivity.
    + intros i j. rewrite (Hitem 0 a [i; j] eq_refl), Ha. simpl.
      rewrite andb_true_r, cast_same. reflexivity.
Qed.

Lemma stack_padded_spec_witness :
  let a := np_full (V := fval) [3; 3] 7 float32 in
  let b := np_full (V := fval) [5; 5] 8 float32 in
  let c := np_full (V := fval) [2; 2] 9 float32 in
  Forall (fun x => ndim x = ndim a) [b; c] /\
  exists out,
    stack_padded [a; b; c] 0 = Ok out /\ shape out = [3; 5; 5] /\
    item out [0; 2; 2] = Some 7%R /\ item out [0; 2; 3] = Some 0%R.
Proof.
  intros a b c.
  assert (Hrank : Forall (fun x => ndim x = ndim a) [b; c])
    by (repeat constructor).
  split; [exact Hrank|].
  destruct (stack_padded_spec a [b; c] Hrank) as (_ & Hex).
  destruct (Hex a b c eq_refl eq_refl eq_refl) as (out & Hout & _ & Hsh & Hitem).
  exists out. split; [exact Hout|]. split; [exact Hsh|].
  split; rewrite Hitem; reflexivity.
Defined.

(** C4. [stack_padded] raises on the empty list, whatever the fill value:
    the assertion on its first line fails and no array is returned. *)
Theorem stack_padded_empty {V : Type} `{Scalars V} (pad_value : Z) :
  stack_padded (V := V) [] pad_value = Raise AssertionError /\
  forall out, stack_padded (V := V) [] pad_value <> Ok out.
Proof. split; [reflexivity | discriminate]. Qed.

(** ** Sums of floating-point values *)

Lemma fmul_comm (a b : fval) : fmul a b = fmul b a.
Proof. destruct a, b; simpl; try reflexivity. f_equal. lra. Qed.

Lemma dot_comm (n : nat) (f g : nat -> fval) : dot n f g = dot n g f.
Proof.
  unfold dot. f_equal. apply map_ext. intros k. apply fmul_comm.
Qed.

Lemma fsum_Some (l : list nat) (f : nat -> fval) (x : nat -> R) :
  (forall k, k ∈ l -> f k = Some (x k)) ->
  fsum (map f l) = Some (foldr Rplus 0%R (map x l)).
Proof.
  unfold fsum. induction l as [|k l IH]; intros Hf; simpl; [reflexivity|].
  rewrite (Hf k) by apply list_elem_of_here.
  rewrite IH; [reflexivity|].
  intros k' Hk'. apply Hf. by apply list_elem_of_further.
Qed.

Lemma dot_Some (n : nat) (f g : nat -> fval) (x y : nat -> R) :
  (forall k, k < n -> f k = Some (x k)) ->
  (forall k, k < n -> g k = Some (y k)) ->
  dot n f g = Some (rsum n (fun k => x k * y k)%R).
Proof.
  intros Hf Hg. unfold dot, rsum.
  apply (fsum_Some (seq 0 n) (fun k => fmul (f k) (g k)) (fun k => x k * y k)%R).
  intros k Hk. apply list_elem_of_In, in_seq in Hk.
  rewrite Hf, Hg by lia. reflexivity.
Qed.

Lemma rsum_ext (n : nat) (f g : nat -> R) :
  (forall k, k < n -> f k = g k) -> rsum n f = rsum n g.
Proof.
  intros Hfg. unfold rsum. f_equal. apply map_ext_in.
  intros k Hk. apply in_seq in Hk. apply Hfg. lia.
Qed.

Lemma foldr_Rplus_scal (c : R) (f : nat -> R) (l : list nat) :
  foldr Rplus 0%R (map (fun k => f k * c)%R l) = (foldr Rplus 0%R (map f l) * c)%R.
Proof.
  induction l as [|k l IH]; simpl; [lra|]. rewrite IH. lra.
Qed.

Lemma rsum_scal (n : nat) (c : R) (f : nat -> R) :
  rsum n (fun k => f k * c)%R = (rsum n f * c)%R.
Proof. apply foldr_Rplus_scal. Qed.

Lemma foldr_Rplus_sq_nonneg (f : nat -> R) (l : list nat) :
  (0 <= foldr Rplus 0 (map (fun k => f k * f k) l))%R.
Proof.
  induction l as [|k l IH]; simpl; [lra|]. nra.
Qed.

Lemma foldr_Rplus_sq_zero (f : nat -> R) (l : list nat) :
  foldr Rplus 0%R (map (fun k => f k * f k)%R l) = 0%R ->
  forall k, k ∈ l -> f k = 0%R.
Proof.
  induction l as [|k l IH]; simpl; intros Hsum k' Hk'.
  - by apply elem_of_nil in Hk'.
  - pose proof (foldr_Rplus_sq_nonneg f l) as Hl.
    apply elem_of_cons in Hk' as [->|Hk'].
    + nra.
    + apply IH; [nra | exact Hk'].
Qed.

Lemma rsum_zero (n : nat) (f : nat -> R) :
  (forall k, k < n -> f k = 0%R) -> rsum n f = 0%R.
Proof.
  intros Hf. rewrite (rsum_ext n f (fun _ => 0%R)) by exact Hf.
  unfold rsum. induction (seq 0 n); simpl; [reflexivity | lra].
Qed.

Lemma normalize_eps_pos : (0 < normalize_eps)%R.
Proof. unfold normalize_eps. apply Rinv_0_lt_compat, pow_lt. lra. Qed.

(** ** Finite tensors *)

Lemma all_finite_ent (X : tensor) (i j : nat) :
  all_finite X = true -> i < nrows X -> j < ncols X ->
  ent X i j = Some (real_ent X i j).
Proof.
  unfold all_finite. intros HX Hi Hj.
  rewrite forallb_forall in HX.
  specialize (HX i). rewrite in_seq in HX.
  specialize (HX ltac:(lia)). rewrite forallb_forall in HX.
  specialize (HX j). rewrite in_seq in HX. specialize (HX ltac:(lia)).
  apply bool_decide_eq_true in HX. destruct HX as [x Hx].
  unfold real_ent. rewrite Hx. reflexivity.
Qed.

Lemma row_sumsq_nonneg (X : tensor) (i : nat) : (0 <= row_sumsq X i)%R.
Proof. apply foldr_Rplus_sq_nonneg. Qed.

Lemma row_norm_finite (X : tensor) (i : nat) :
  all_finite X = true -> i < nrows X ->
  row_norm X i = Some (sqrt (row_sumsq X i)).
Proof.
  intros HX Hi. unfold row_norm.
  rewrite (dot_Some _ _ _ (real_ent X i) (real_ent X i))
    by (intros; apply all_finite_ent; assumption).
  simpl. fold (row_sumsq X i).
  destruct (Rlt_dec (row_sumsq X i) 0) as [Hlt|_]; [|reflexivity].
  pose proof (row_sumsq_nonneg X i). lra.
Qed.

(** The divisor [F.normalize] uses for row [i] of a finite tensor. *)
Lemma normalize_divisor_pos (X : tensor) (i : nat) :
  (0 < Rmax (sqrt (row_sumsq X i)) normalize_eps)%R.
Proof.
  pose proof normalize_eps_pos. pose proof (Rmax_r (sqrt (row_sumsq X i)) normalize_eps).
  lra.
Qed.

Lemma F_normalize_finite (X : tensor) (i j : nat) :
  all_finite X = true -> i < nrows X -> j < ncols X ->
  ent (F_normalize X) i j =
    Some (real_ent X i j / Rmax (sqrt (row_sumsq X i)) normalize_eps)%R.
Proof.
  intros HX Hi Hj. simpl.
  rewrite row_norm_finite, all_finite_ent by assumption. simpl.
  destruct (Req_dec_T _ 0) as [H0|_]; [|reflexivity].
  pose proof (normalize_divisor_pos X i). lra.
Qed.

(** The similarity matrix of a finite tensor, entry by entry. *)
Lemma cos_similarity_finite (X : tensor) :
  all_finite X = true ->
  exists M,
    cos_similarity X = Ok M /\ nrows M = nrows X /\ ncols M = nrows X /\
    forall i j, i < nrows X -> j < nrows X ->
      ent M i j =
        Some (rsum (ncols X) (fun k =>
                real_ent X i k / Rmax (sqrt (row_sumsq X i)) normalize_eps *
                (real_ent X j k / Rmax (sqrt (row_sumsq X j)) normalize_eps)))%R.
Proof.
  intros HX. unfold cos_similarity, matmul. simpl.
  destruct (decide (ncols X = ncols X)) as [_|?]; [|contradiction].
  eexists. split; [reflexivity|]. split; [reflexivity|]. split; [reflexivity|].
  intros i j Hi Hj. cbn [ent].
  apply dot_Some; intros k Hk; apply F_normalize_finite; assumption.
Qed.

Lemma mapM_Ok_exists {A B : Type} (f : A -> result B) (P : A -> B -> Prop)
    (l : list A) :
  Forall (fun x => exists y, f x = Ok y /\ P x y) l ->
  exists k, mapM f l = Ok k /\ Forall2 P l k.
Proof.
  induction 1 as [|x l (y & Hy & HP) _ (k & Hk & HPk)].
  - exists []. split; [reflexivity | constructor].
  - exists (y :: k). split; [|by constructor].
    simpl. rewrite Hy. simpl. rewrite Hk. reflexivity.
Qed.

Lemma fsum_Some_inv (l : list nat) (f : nat -> fval) (s : R) :
  fsum (map f l) = Some s -> forall k, k ∈ l -> is_Some (f k).
Proof.
  unfold fsum. revert s. induction l as [|k l IH]; simpl; intros s Hs k' Hk'.
  - by apply elem_of_nil in Hk'.
  - destruct (f k) as [x|] eqn:Hfk; [|discriminate].
    destruct (foldr fadd (Some 0%R) (map f l)) as [t|] eqn:Hl; [|discriminate].
    apply elem_of_cons in Hk' as [->|Hk'].
    + rewrite Hfk. by eexists.
    + by apply (IH t).
Qed.

Lemma row_norm_Some_all_finite (X : tensor) :
  (forall i, i < nrows X -> is_Some (row_norm X i)) -> all_finite X = true.
Proof.
  intros Hrows. unfold all_finite.
  apply forallb_forall. intros i Hi. apply in_seq in Hi.
  apply forallb_forall. intros j Hj. apply in_seq in Hj.
  apply bool_decide_eq_true.
  destruct (Hrows i ltac:(lia)) as [r Hr]. unfold row_norm, dot in Hr.
  destruct (fsum _) as [s|] eqn:Hs; [|discriminate].
  eapply (fsum_Some_inv _ (fun k => fmul (ent X i k) (ent X i k))) with (k := j) in Hs.
  - simpl in Hs. destruct (ent X i j); [by eexists | by destruct Hs].
  - apply list_elem_of_In, in_seq. lia.
Qed.

(** Every similarity matrix is symmetric, undefined entries included. *)
Lemma cos_similarity_symmetric (X M : tensor) :
  cos_similarity X = Ok M -> forall i j, ent M i j = ent M j i.
Proof.
  unfold cos_similarity, matmul. simpl.
  destruct (decide (ncols X = ncols X)) as [_|?]; [|contradiction].
  intros [= <-] i j. simpl. apply dot_comm.
Qed.

(** A row whose norm is at least [eps] is divided by its norm, and has
    cosine similarity 1 with itself. *)
Lemma cos_similarity_diagonal (X M : tensor) (i : nat) :
  all_finite X = true -> cos_similarity X = Ok M -> i < nrows X ->
  (normalize_eps <= sqrt (row_sumsq X i))%R ->
  ent M i i = Some 1%R.
Proof.
  intros HX HM Hi Hnorm.
  destruct (cos_similarity_finite X HX) as (M' & HM' & _ & _ & Hent).
  rewrite HM in HM'. injection HM' as <-.
  rewrite Hent by assumption. f_equal.
  rewrite Rmax_left by lra.
  pose proof normalize_eps_pos as Heps.
  pose proof (row_sumsq_nonneg X i) as Hs.
  set (n := sqrt (row_sumsq X i)) in *.
  assert (Hn : (n * n = row_sumsq X i)%R) by (apply sqrt_sqrt; exact Hs).
  rewrite (rsum_ext _ _ (fun k => real_ent X i k * real_ent X i k * (/ n * / n))%R)
    by (intros; unfold Rdiv; ring).
  rewrite rsum_scal. fold (row_sumsq X i). rewrite <- Hn. field. lra.
Qed.

(** A zero row of a finite tensor is divided by [eps]: its similarities
    are 0, not undefined. *)
Lemma cos_similarity_zero_row (X M : tensor) (i j : nat) :
  all_finite X = true -> cos_similarity X = Ok M ->
  i < nrows X -> j < nrows X ->
  row_norm X i = Some 0%R ->
  ent M i j = Some 0%R /\ ent M j i = Some 0%R.
Proof.
  intros HX HM Hi Hj Hzero.
  assert (Hrow : forall k, k < ncols X -> real_ent X i k = 0%R).
  { rewrite row_norm_finite in Hzero by assumption. injection Hzero as Hzero.
    apply sqrt_eq_0 in Hzero; [|apply row_sumsq_nonneg].
    intros k Hk. apply (foldr_Rplus_sq_zero (real_ent X i) (seq 0 (ncols X))).
    - exact Hzero.
    - apply list_elem_of_In, in_seq. lia. }
  assert (Hij : ent M i j = Some 0%R).
  { destruct (cos_similarity_finite X HX) as (M' & HM' & _ & _ & Hent).
    rewrite HM in HM'. injection HM' as <-.
    rewrite Hent by assumption. f_equal. apply rsum_zero.
    intros k Hk. rewrite Hrow by exact Hk. unfold Rdiv. ring. }
  split; [exact Hij|]. rewrite <- Hij. apply (cos_similarity_symmetric X M HM).
Qed.

Lemma cos_similarity_singleton (X M : tensor) :
  cos_similarity X = Ok M -> compute_cos_similarities [X] = Ok [M].
Proof. intros HM. unfold compute_cos_similarities. simpl. rewrite HM. reflexivity. Qed.

Lemma row_norm_zero_row : row_norm zero_row 0 = Some 0%R.
Proof.
  rewrite row_norm_finite by (reflexivity || (simpl; lia)).
  f_equal. unfold row_sumsq, rsum, real_ent. simpl.
  replace (0 * 0 + (0 * 0 + 0))%R with 0%R by ring. apply sqrt_0.
Qed.

Lemma row_norm_tiny_row : row_norm tiny_row 0 = Some (/ 10 ^ 13)%R.
Proof.
  rewrite row_norm_finite by (reflexivity || (simpl; lia)).
  f_equal. unfold row_sumsq, rsum, real_ent. simpl foldr.
  rewrite Rplus_0_r. apply sqrt_square.
  left. apply Rinv_0_lt_compat, pow_lt. lra.
Qed.

(** C6, as stated, fails on the matrix with rows [(0, 0)] and [(3, 4)]:
    its first row has norm 0, and the first row of its similarity matrix
    is the pair of finite numbers [(0, 0)]. *)
Lemma cos_similarity_zero_row_is_defined :
  row_norm zero_row 0 = Some 0%R /\
  (exists M, compute_cos_similarities [zero_row] = Ok [M] /\
             ent M 0 0 = Some 0%R /\ ent M 0 1 = Some 0%R) /\
  ~ (forall X M i, i < nrows X -> row_norm X i = Some 0%R ->
       cos_similarity X = Ok M -> exists j, j < nrows X /\ ent M i j = None).
Proof.
  assert (Hfin : all_finite zero_row = true) by reflexivity.
  destruct (cos_similarity_finite zero_row Hfin) as (M & HM & _ & _ & _).
  assert (H0 : forall j, j < 2 -> ent M 0 j = Some 0%R).
  { intros j Hj.
    apply (cos_similarity_zero_row zero_row M 0 j Hfin HM); simpl; try lia.
    apply row_norm_zero_row. }
  split; [apply row_norm_zero_row|]. split.
  - exists M. split; [by apply cos_similarity_singleton|]. split; apply H0; lia.
  - intros Hclaim.
    destruct (Hclaim zero_row M 0) as (j & Hj & Hnone);
      [simpl; lia | apply row_norm_zero_row | exact HM |].
    simpl in Hj. rewrite H0 in Hnone by exact Hj. discriminate.
Qed.

(** C6, amended.  [F.normalize] divides a row by its norm clamped from
    below at [eps = 1e-12], so the zero-norm case is guarded: for finite
    hidden states [compute_cos_similarities] returns matrices whose
    entries are all finite, and a row of zero norm gets a row (and a
    column) of zeros in the similarity matrix of its layer. *)
Theorem compute_cos_similarities_zero_norm (hidden_states : list tensor) :
  Forall (fun X => all_finite X = true) hidden_states ->
  exists sim_matrices,
    compute_cos_similarities hidden_states = Ok sim_matrices /\
    Forall2 (fun X M =>
      nrows M = nrows X /\ ncols M = nrows X /\
      (forall i j, i < nrows X -> j < nrows X -> is_Some (ent M i j)) /\
      (forall i j, i < nrows X -> j < nrows X -> row_norm X i = Some 0%R ->
         ent M i j = Some 0%R /\ ent M j i = Some 0%R))
      hidden_states sim_matrices.
Proof.
  intros Hfin. apply mapM_Ok_exists.
  eapply Forall_impl; [exact Hfin|]. intros X HX. simpl in HX.
  destruct (cos_similarity_finite X HX) as (M & HM & Hr & Hc & Hent).
  exists M. split; [exact HM|]. split; [exact Hr|]. split; [exact Hc|]. split.
  - intros i j Hi Hj. rewrite Hent by assumption. by eexists.
  - intros i j Hi Hj Hzero. by apply (cos_similarity_zero_row X M i j).
Qed.

Lemma compute_cos_similarities_zero_norm_witness :
  Forall (fun X => all_finite X = true) [zero_row] /\
  exists sim_matrices, compute_cos_similarities [zero_row] = Ok sim_matrices.
Proof.
  assert (H : Forall (fun X => all_finite X = true) [zero_row])
    by (repeat constructor).
  split; [exact H|].
  destruct (compute_cos_similarities_zero_norm [zero_row] H) as (Ms & HMs & _).
  exists Ms. exact HMs.
Defined.

(** C7, as stated, fails on the [1 x 1] matrix with entry [1e-13]: the
    norm of its row is [1e-13], not zero, and the diagonal entry of its
    similarity matrix is [0.01]. *)
Lemma cos_similarity_tiny_row_diagonal :
  (forall i, i < nrows tiny_row ->
     exists r, row_norm tiny_row i = Some r /\ r <> 0%R) /\
  exists M, compute_cos_similarities [tiny_row] = Ok [M] /\
            ent M 0 0 = Some (/ 100)%R /\ ent M 0 0 <> Some 1%R.
Proof.
  assert (Hpos : (0 < / 10 ^ 13)%R) by (apply Rinv_0_lt_compat, pow_lt; lra).
  split.
  - intros i Hi. simpl in Hi. assert (i = 0) as -> by lia.
    eexists. split; [apply row_norm_tiny_row | lra].
  - assert (Hfin : all_finite tiny_row = true) by reflexivity.
    destruct (cos_similarity_finite tiny_row Hfin) as (M & HM & _ & _ & Hent).
    assert (HM00 : ent M 0 0 = Some (/ 100)%R).
    { rewrite Hent by (simpl; lia). f_equal.
      assert (Hn : sqrt (row_sumsq tiny_row 0) = (/ 10 ^ 13)%R).
      { pose proof row_norm_tiny_row as Hr.
        rewrite row_norm_finite in Hr by (reflexivity || (simpl; lia)).
        by injection Hr. }
      rewrite Hn. unfold normalize_eps.
      rewrite Rmax_right.
      - unfold rsum, real_ent. simpl. field.
      - apply Rlt_le, Rinv_lt_contravar.
        + apply Rmult_lt_0_compat; apply pow_lt; lra.
        + apply Rlt_pow; [lra | lia]. }
    exists M. split; [by apply cos_similarity_singleton|].
    split; [exact HM00|]. rewrite HM00. intros [= Heq]. lra.
Qed.

(** C7, amended.  For hidden states whose rows all have a norm of at
    least [eps = 1e-12], the bound below which [F.normalize] no longer
    divides by the norm, and a sum of squares of at most [float32_max],
    so that the norm does not overflow, [compute_cos_similarities]
    returns for every layer of [N] rows an [N x N] matrix that is
    symmetric and has 1 on its diagonal (in exact arithmetic). *)
Theorem compute_cos_similarities_unit_diagonal (hidden_states : list tensor) :
  Forall (fun X => forall i, i < nrows X ->
            exists r, row_norm X i = Some r /\ (normalize_eps <= r)%R /\
                      (r * r <= float32_max)%R)
         hidden_states ->
  exists sim_matrices,
    compute_cos_similarities hidden_states = Ok sim_matrices /\
    Forall2 (fun X M =>
      nrows M = nrows X /\ ncols M = nrows X /\
      (forall i j, ent M i j = ent M j i) /\
      (forall i, i < nrows X -> ent M i i = Some 1%R))
      hidden_states sim_matrices.
Proof.
  intros Hrows. apply mapM_Ok_exists.
  eapply Forall_impl; [exact Hrows|]. intros X HX. simpl in HX.
  assert (Hfin : all_finite X = true).
  { apply row_norm_Some_all_finite. intros i Hi.
    destruct (HX i Hi) as (r & Hr & _). by eexists. }
  destruct (cos_similarity_finite X Hfin) as (M & HM & Hr & Hc & _).
  exists M. split; [exact HM|]. split; [exact Hr|]. split; [exact Hc|]. split.
  - apply (cos_similarity_symmetric X M HM).
  - intros i Hi. apply (cos_similarity_diagonal X M i Hfin HM Hi).
    destruct (HX i Hi) as (r & Hnorm & Hle & _).
    rewrite row_norm_finite in Hnorm by assumption. injection Hnorm as ->.
    exact Hle.
Qed.

Lemma normalize_eps_le_1 : (normalize_eps <= 1)%R.
Proof.
  unfold normalize_eps. apply Rle_trans with (/ 1)%R; [|rewrite Rinv_1; lra].
  apply Rinv_le_contravar; [lra|]. apply pow_R1_Rle. lra.
Qed.

Lemma row_norm_two_rows (i : nat) :
  i < 2 -> exists r, row_norm two_rows i = Some r /\ (normalize_eps <= r)%R.
Proof.
  intros Hi. pose proof normalize_eps_le_1 as Heps.
  rewrite row_norm_finite by (reflexivity || exact Hi).
  eexists. split; [reflexivity|].
  unfold row_sumsq, rsum, real_ent.
  destruct i as [|[|i]]; [| |lia]; simpl.
  - replace (3 * 3 + (4 * 4 + 0))%R with (5 * 5)%R by ring.
    rewrite sqrt_square; lra.
  - replace (1 * 1 + (0 * 0 + 0))%R with (1 * 1)%R by ring.
    rewrite sqrt_square; lra.
Qed.

Lemma float32_max_ge_32 : (32 <= float32_max)%R.
Proof.
  unfold float32_max.
  assert (H23 : (/ 2 ^ 23 <= 1)%R).
  { apply Rle_trans with (/ 1)%R; [|rewrite Rinv_1; lra].
    apply Rinv_le_contravar; [lra|]. apply pow_R1_Rle. lra. }
  assert (H127 : (2 ^ 5 <= 2 ^ 127)%R) by (apply Rle_pow; [lra | lia]).
  assert (H5 : (2 ^ 5 = 32)%R) by (simpl; ring).
  nra.
Qed.

Lemma row_norm_two_rows_in_range (i : nat) :
  i < 2 ->
  exists r, row_norm two_rows i = Some r /\ (normalize_eps <= r)%R /\
            (r * r <= float32_max)%R.
Proof.
  intros Hi. pose proof normalize_eps_le_1 as Heps.
  pose proof float32_max_ge_32 as Hmax.
  rewrite row_norm_finite by (reflexivity || exact Hi).
  eexists. split; [reflexivity|].
  unfold row_sumsq, rsum, real_ent.
  destruct i as [|[|i]]; [| |lia]; simpl.
  - replace (3 * 3 + (4 * 4 + 0))%R with (5 * 5)%R by ring.
    rewrite sqrt_square by lra. lra.
  - replace (1 * 1 + (0 * 0 + 0))%R with (1 * 1)%R by ring.
    rewrite sqrt_square by lra. lra.
Qed.

Lemma compute_cos_similarities_unit_diagonal_witness :
  Forall (fun X => forall i, i < nrows X ->
            exists r, row_norm X i = Some r /\ (normalize_eps <= r)%R /\
                      (r * r <= float32_max)%R)
         [two_rows] /\
  exists sim_matrices, compute_cos_similarities [two_rows] = Ok sim_matrices.
Proof.
  assert (H : Forall (fun X => forall i, i < nrows X ->
                        exists r, row_norm X i = Some r /\ (normalize_eps <= r)%R /\
                                  (r * r <= float32_max)%R)
                     [two_rows])
    by (repeat constructor; exact row_norm_two_rows_in_range).
  split; [exact H|].
  destruct (compute_cos_similarities_unit_diagonal [two_rows] H) as (Ms & HMs & _).
  exists Ms. exact HMs.
Defined.

(** ** [compute_attention_logits] *)

Lemma pow_neg_half_inv_sqrt (n : nat) :
  n <> 0 -> pow_neg_half n = Ok (/ sqrt (INR n))%R.
Proof.
  intros Hn. unfold pow_neg_half.
  destruct (decide (n = 0)) as [?|_]; [contradiction|].
  f_equal. rewrite Rpower_Ropp, Rpower_sqrt; [reflexivity|].
  apply lt_0_INR. lia.
Qed.

Lemma pow_neg_half_4 : pow_neg_half 4 = Ok (/ 2)%R.
Proof.
  rewrite pow_neg_half_inv_sqrt by lia. do 2 f_equal.
  replace (INR 4) with (2 * 2)%R by (simpl; ring).
  apply sqrt_square. lra.
Qed.

(** What one layer's logit matrix is when the layer's turn of the loop
    succeeds, and when it does. *)
Lemma attention_logit_Ok (X : tensor) (query key : projector) (M : tensor) :
  attention_logit X query key = Ok M <->
  exists Q K QKt,
    query X = Ok Q /\ key X = Ok K /\ ncols K <> 0 /\
    matmul Q (transpose K) = Ok QKt /\
    M = scale (Some (/ sqrt (INR (ncols K)))%R) QKt.
Proof.
  unfold attention_logit. split.
  - destruct (query X) as [Q|] eqn:HQ; simpl; [|discriminate].
    destruct (key X) as [K|] eqn:HK; simpl; [|discriminate].
    destruct (decide (ncols K = 0)) as [H0|Hn].
    { unfold pow_neg_half. destruct (decide (ncols K = 0)); [discriminate | contradiction]. }
    rewrite pow_neg_half_inv_sqrt by exact Hn. simpl.
    destruct (matmul Q (transpose K)) as [QKt|] eqn:Hmm; simpl; [|discriminate].
    intros [= <-]. exists Q, K, QKt. auto.
  - intros (Q & K & QKt & -> & -> & Hn & Hmm & ->). simpl.
    rewrite pow_neg_half_inv_sqrt by exact Hn. simpl. rewrite Hmm. reflexivity.
Qed.

Lemma zip3_length {A B C} (l1 : list A) (l2 : list B) (l3 : list C) :
  length (zip3 l1 l2 l3) = Nat.min (length l1) (Nat.min (length l2) (length l3)).
Proof. unfold zip3. rewrite !length_zip_with. reflexivity. Qed.

Lemma zip3_lookup {A B C} (l1 : list A) (l2 : list B) (l3 : list C) (i : nat)
    (x : A) (y : B) (z : C) :
  zip3 l1 l2 l3 !! i = Some (x, (y, z)) <->
  l1 !! i = Some x /\ l2 !! i = Some y /\ l3 !! i = Some z.
Proof.
  unfold zip3. rewrite lookup_zip_with_Some. split.
  - intros (x' & yz & [= <- <-] & Hx & Hyz).
    apply lookup_zip_with_Some in Hyz as (y' & z' & [= -> ->] & Hy & Hz). auto.
  - intros (Hx & Hy & Hz). exists x, (y, z). repeat split; [exact Hx|].
    apply lookup_zip_with_Some. exists y, z. auto.
Qed.

Lemma zip3_take {A B C} (l1 : list A) (l2 : list B) (l3 : list C) :
  let n := Nat.min (length l1) (Nat.min (length l2) (length l3)) in
  zip3 (take n l1) (take n l2) (take n l3) = zip3 l1 l2 l3.
Proof.
  intros n. unfold zip3. rewrite <- !zip_with_take.
  apply take_ge. fold (zip3 l1 l2 l3). rewrite zip3_length. lia.
Qed.

Lemma compute_attention_logits_Ok_lookup (hidden_states : list tensor)
    (queries keys : list projector) (logit_matrices : list tensor)
    (l : nat) (X : tensor) (query key : projector) :
  compute_attention_logits hidden_states queries keys = Ok logit_matrices ->
  hidden_states !! l = Some X -> queries !! l = Some query -> keys !! l = Some key ->
  exists M, logit_matrices !! l = Some M /\ attention_logit X query key = Ok M.
Proof.
  intros Hms HX Hq Hk. unfold compute_attention_logits in Hms.
  assert (Hz : zip3 hidden_states queries keys !! l = Some (X, (query, key)))
    by (apply zip3_lookup; auto).
  destruct (mapM_Ok_lookup _ _ _ _ _ Hms Hz) as (M & HM & Hlogit). eauto.
Qed.

Lemma matmul_Ok (A B M : tensor) :
  matmul A B = Ok M ->
  ncols A = nrows B /\ nrows M = nrows A /\ ncols M = ncols B /\
  forall i j, ent M i j = dot (ncols A) (fun k => ent A i k) (fun k => ent B k j).
Proof.
  unfold matmul. destruct (decide (ncols A = nrows B)) as [Heq|]; [|discriminate].
  intros [= <-]. simpl. auto.
Qed.

(** C5, as stated, fails on two layers with one query and one key
    projector: the lengths differ, and [compute_attention_logits] returns
    a list of one matrix. *)
Lemma compute_attention_logits_shorter :
  length [two_rows; two_rows] <> length [identity_projector] /\
  exists M,
    compute_attention_logits [two_rows; two_rows]
      [identity_projector] [identity_projector] = Ok [M].
Proof.
  split; [simpl; lia|].
  eexists. unfold compute_attention_logits, zip3, attention_logit. simpl.
  reflexivity.
Qed.

(** C5, amended.  [compute_attention_logits] does not compare the lengths
    of its three lists: it runs on the first [n] entries of each, for [n]
    the least of the three lengths, matching layer, query projector and
    key projector by index, and what lies beyond [n] is ignored.  It
    returns [n] matrices, so one per layer when the lengths agree, and it
    raises only when the computation of one of these [n] layers raises. *)
Theorem compute_attention_logits_zip (hidden_states : list tensor)
    (queries keys : list projector) :
  let n := Nat.min (length hidden_states) (Nat.min (length queries) (length keys)) in
  compute_attention_logits hidden_states queries keys =
    compute_attention_logits (take n hidden_states) (take n queries) (take n keys) /\
  (forall logit_matrices,
     compute_attention_logits hidden_states queries keys = Ok logit_matrices ->
     length logit_matrices = n /\
     forall l X query key,
       hidden_states !! l = Some X -> queries !! l = Some query ->
       keys !! l = Some key ->
       exists M, logit_matrices !! l = Some M /\ attention_logit X query key = Ok M) /\
  (forall e,
     compute_attention_logits hidden_states queries keys = Raise e ->
     exists l X query key,
       hidden_states !! l = Some X /\ queries !! l = Some query /\
       keys !! l = Some key /\ attention_logit X query key = Raise e) /\
  (length queries = length hidden_states -> length keys = length hidden_states ->
   forall logit_matrices,
     compute_attention_logits hidden_states queries keys = Ok logit_matrices ->
     length logit_matrices = length hidden_states).
Proof.
  intros n.
  assert (Hlen : forall ms, compute_attention_logits hidden_states queries keys = Ok ms ->
                            length ms = n).
  { intros ms Hms. unfold compute_attention_logits in Hms.
    apply mapM_Ok_length in Hms. rewrite Hms. apply zip3_length. }
  split; [|split; [|split]].
  - unfold compute_attention_logits. subst n. rewrite zip3_take. reflexivity.
  - intros ms Hms. split; [by apply Hlen|].
    intros l X query key. by apply compute_attention_logits_Ok_lookup.
  - intros e He. unfold compute_attention_logits in He.
    apply mapM_Raise_elem in He as ([X [query key]] & Hin & Hraise).
    apply list_elem_of_lookup in Hin as [l Hl].
    apply zip3_lookup in Hl as (HX & Hq & Hk).
    exists l, X, query, key. auto.
  - intros Hq Hk ms Hms. rewrite (Hlen ms Hms). subst n. lia.
Qed.

(** C9.  In every layer the logit matrix is the product of the queries
    with the transposed keys, every entry multiplied by the inverse of the
    square root of the number [d'] of columns of the keys; for [d' = 4]
    every entry of the product is divided by 2. *)
Theorem compute_attention_logits_scaling (hidden_states : list tensor)
    (queries keys : list projector) (logit_matrices : list tensor)
    (l : nat) (X : tensor) (query key : projector) :
  compute_attention_logits hidden_states queries keys = Ok logit_matrices ->
  hidden_states !! l = Some X -> queries !! l = Some query -> keys !! l = Some key ->
  exists Q K QKt M,
    query X = Ok Q /\ key X = Ok K /\ matmul Q (transpose K) = Ok QKt /\
    logit_matrices !! l = Some M /\
    nrows M = nrows Q /\ ncols M = nrows K /\
    (forall i j,
       ent QKt i j = dot (ncols Q) (fun c => ent Q i c) (fun c => ent K j c)) /\
    (forall i j, ent M i j = fmul (Some (/ sqrt (INR (ncols K)))%R) (ent QKt i j)) /\
    (ncols K = 4 -> forall i j, ent M i j = fdiv (ent QKt i j) (Some 2%R)).
Proof.
  intros Hms HX Hq Hk.
  destruct (compute_attention_logits_Ok_lookup _ _ _ _ _ _ _ _ Hms HX Hq Hk)
    as (M & HM & Hlogit).
  apply attention_logit_Ok in Hlogit as (Q & K & QKt & HQ & HK & Hn & Hmm & ->).
  destruct (matmul_Ok _ _ _ Hmm) as (_ & Hr & Hc & Hent).
  exists Q, K, QKt, (scale (Some (/ sqrt (INR (ncols K)))%R) QKt).
  repeat split; try assumption.
  intros H4 i j. simpl. rewrite H4.
  replace (INR 4) with (2 * 2)%R by (simpl; ring).
  rewrite sqrt_square by lra.
  destruct (ent QKt i j) as [x|]; simpl; [|reflexivity].
  destruct (Req_dec_T 2 0) as [?|_]; [lra|]. f_equal. lra.
Qed.

Lemma compute_attention_logits_scaling_witness :
  exists logit_matrices Q K QKt M,
    compute_attention_logits [four_cols] [identity_projector] [identity_projector]
      = Ok logit_matrices /\
    identity_projector four_cols = Ok Q /\ identity_projector four_cols = Ok K /\
    matmul Q (transpose K) = Ok QKt /\ logit_matrices !! 0 = Some M /\
    ncols K = 4 /\ ent M 0 0 = fdiv (ent QKt 0 0) (Some 2%R).
Proof.
  assert (Hms : exists ms,
    compute_attention_logits [four_cols] [identity_projector] [identity_projector]
      = Ok ms).
  { eexists. unfold compute_attention_logits, zip3, attention_logit. simpl.
    reflexivity. }
  destruct Hms as (ms & Hms).
  destruct (compute_attention_logits_scaling
              [four_cols] [identity_projector] [identity_projector] ms 0
              four_cols identity_projector identity_projector Hms
              eq_refl eq_refl eq_refl)
    as (Q & K & QKt & M & HQ & HK & Hmm & HM & _ & _ & _ & _ & H4).
  exists ms, Q, K, QKt, M. repeat split; try assumption.
  - injection HK as <-. reflexivity.
  - apply H4. injection HK as <-. reflexivity.
Defined.

Lemma compute_attention_logits_zip_witness :
  exists logit_matrices,
    compute_attention_logits [two_rows; two_rows]
      [identity_projector] [identity_projector] = Ok logit_matrices /\
    length logit_matrices = 1.
Proof.
  destruct (compute_attention_logits_zip [two_rows; two_rows]
              [identity_projector] [identity_projector]) as (_ & Hok & _).
  eexists. split.
  - unfold compute_attention_logits, zip3, attention_logit. simpl. reflexivity.
  - eapply Hok. unfold compute_attention_logits, zip3, attention_logit. simpl.
    reflexivity.
Defined.

(** ** [compute_clustering] *)

Section clustering.
Context `{Libraries}.

Lemma PCA_fit_transform_Ok (n : nat) (X : tensor) :
  all_finite X = true -> n <= nrows X -> n <= ncols X ->
  PCA_fit_transform n X = Ok (pca_project n X).
Proof.
  intros HX Hr Hc. unfold PCA_fit_transform. rewrite HX. simpl.
  rewrite bool_decide_eq_true_2 by lia. reflexivity.
Qed.

Lemma PCA_fit_transform_few_columns (n : nat) (X : tensor) :
  ncols X < n -> PCA_fit_transform n X = Raise ValueError.
Proof.
  intros Hc. unfold PCA_fit_transform.
  rewrite (bool_decide_eq_false_2 (n <= Nat.min (nrows X) (ncols X))) by lia.
  rewrite andb_false_r. reflexivity.
Qed.

Lemma PCA_fit_transform_inv (n : nat) (X X' : tensor) :
  PCA_fit_transform n X = Ok X' ->
  all_finite X = true /\ n <= nrows X /\ n <= ncols X /\ X' = pca_project n X.
Proof.
  unfold PCA_fit_transform.
  destruct (all_finite X); simpl; [|discriminate].
  destruct (bool_decide _) eqn:Hn; [|discriminate].
  apply bool_decide_eq_true in Hn. intros [= <-]. repeat split; lia.
Qed.

(** Every error of a layer's clustering is a [ValueError]. *)
Lemma cluster_layer_Raise (X : tensor) (e : exn) :
  cluster_layer X = Raise e -> e = ValueError.
Proof.
  unfold cluster_layer, PCA_fit_transform.
  destruct (_ && _); simpl; [|congruence].
  destruct (hdbscan_labels 3 _); simpl; congruence.
Qed.

(** What the clustering of one layer returns. *)
Lemma cluster_layer_Ok (X : tensor) (labels : list Z) (metrics : list fval) :
  cluster_layer X = Ok (labels, metrics) ->
  exists X' m,
    PCA_fit_transform 32 X = Ok X' /\
    labels = hdbscan_labels 3 X' /\
    array_max labels = Ok m /\
    metrics =
      [Some (IZR (m + 1));
       fdiv (Some (INR (count_outliers labels))) (Some (INR (length labels)));
       if bool_decide (1 < m + 1)%Z then silhouette_score X' labels else Some 1%R;
       if bool_decide (1 < m + 1)%Z then validity_index X' labels else Some 1%R].
Proof.
  unfold cluster_layer.
  destruct (PCA_fit_transform 32 X) as [X'|] eqn:HX'; simpl; [|discriminate].
  destruct (array_max (hdbscan_labels 3 X')) as [m|] eqn:Hm; simpl; [|discriminate].
  intros [= <- <-]. exists X', m. auto.
Qed.

Lemma array_max_Ok (labels : list Z) :
  labels <> [] -> exists m, array_max labels = Ok m.
Proof. destruct labels; [contradiction|]. intros _. simpl. eauto. Qed.

Lemma cluster_layer_succeeds (X : tensor) :
  all_finite X = true -> 32 <= nrows X -> 32 <= ncols X ->
  exists r, cluster_layer X = Ok r.
Proof.
  intros HX Hr Hc. unfold cluster_layer.
  rewrite PCA_fit_transform_Ok by assumption. simpl.
  destruct (array_max_Ok (hdbscan_labels 3 (pca_project 32 X))) as (m & Hm).
  - intros Hnil. apply (f_equal length) in Hnil.
    rewrite hdbscan_labels_length, pca_project_nrows in Hnil. simpl in Hnil. lia.
  - rewrite Hm. simpl. eauto.
Qed.

End clustering.

Lemma map_lookup {A B : Type} (f : A -> B) (l : list A) (i : nat) :
  map f l !! i = f <$> l !! i.
Proof.
  revert i. induction l as [|x l IH]; intros [|i]; simpl; try reflexivity.
  apply IH.
Qed.

Lemma array_max_is_maximum (labels : list Z) (m : Z) :
  array_max labels = Ok m -> m ∈ labels /\ forall x, x ∈ labels -> (x <= m)%Z.
Proof.
  destruct labels as [|l rest]; simpl; [discriminate|]. intros [= <-].
  induction rest as [|y rest [IHin IHle]]; simpl.
  - split; [apply list_elem_of_here|]. intros x Hx.
    apply list_elem_of_singleton in Hx. lia.
  - split.
    + destruct (Z.max_spec y (foldr Z.max l rest)) as [[_ ->]|[_ ->]].
      * apply elem_of_cons in IHin as [Heq|Hin].
        -- rewrite Heq. apply list_elem_of_here.
        -- by do 2 apply list_elem_of_further.
      * apply list_elem_of_further, list_elem_of_here.
    + intros x Hx. apply elem_of_cons in Hx as [->|Hx].
      * specialize (IHle l (list_elem_of_here _ _)). lia.
      * apply elem_of_cons in Hx as [->|Hx]; [lia|].
        specialize (IHle x (list_elem_of_further _ _ _ Hx)). lia.
Qed.

(** C8.  For every layer that [compute_clustering] clusters, with [K] the
    largest label plus one: the metrics are [K], the number of labels
    equal to -1 divided by the number [N] of rows, and two scores, which are both the
    fixed value 1.0 when [K <= 1] and are the silhouette score and the
    validity index of the reduced data and its labels when [K > 1].
    Finite inputs of at least 32 rows and 32 columns are clustered. *)
Theorem compute_clustering_metrics `{Libraries} (data : list tensor) :
  (Forall (fun X => all_finite X = true /\ 32 <= nrows X /\ 32 <= ncols X) data ->
   exists labels metrics, compute_clustering data = Ok (labels, metrics)) /\
  (forall labels metrics,
     compute_clustering data = Ok (labels, metrics) ->
     length labels = length data /\ length metrics = length data /\
     forall l X, data !! l = Some X ->
       exists X' lab K silh_score dbcv_score,
         PCA_fit_transform 32 X = Ok X' /\
         lab = hdbscan_labels 3 X' /\
         labels !! l = Some lab /\
         length lab = nrows X /\
         ((K - 1)%Z ∈ lab /\ forall x, x ∈ lab -> (x <= K - 1)%Z) /\
         metrics !! l =
           Some [Some (IZR K);
                 Some (INR (length (filter (fun x => x = (-1)%Z) lab))
                       / INR (nrows X))%R;
                 silh_score; dbcv_score] /\
         ((K <= 1)%Z -> silh_score = Some 1%R /\ dbcv_score = Some 1%R) /\
         ((1 < K)%Z ->
            silh_score = silhouette_score X' lab /\
            dbcv_score = validity_index X' lab)).
Proof.
  unfold compute_clustering. split.
  - intros Hdata.
    destruct (mapM_Ok_exists cluster_layer (fun _ _ => True) data) as (k & Hk & _).
    { eapply Forall_impl; [exact Hdata|]. intros X (HX & Hr & Hc).
      destruct (cluster_layer_succeeds X HX Hr Hc) as (r & Hr'). eauto. }
    rewrite Hk. simpl. eauto.
  - intros labels metrics Hres.
    destruct (mapM cluster_layer data) as [per_layer|] eqn:Hmap; simpl in Hres;
      [|discriminate].
    injection Hres as <- <-.
    pose proof (mapM_Ok_length _ _ _ Hmap) as Hlen.
    rewrite !length_map. repeat split; try exact Hlen.
    intros l X HX.
    destruct (mapM_Ok_lookup _ _ _ _ _ Hmap HX) as ([lab met] & Hl & Hlayer).
    apply cluster_layer_Ok in Hlayer as (X' & m & HX' & Hlab & Hm & Hmet).
    pose proof (PCA_fit_transform_inv _ _ _ HX') as (_ & Hrows & _ & HX'eq).
    assert (HN : length lab = nrows X).
    { rewrite Hlab, hdbscan_labels_length, HX'eq. apply pca_project_nrows. }
    exists X', lab, (m + 1)%Z.
    exists (if bool_decide (1 < m + 1)%Z then silhouette_score X' lab else Some 1%R).
    exists (if bool_decide (1 < m + 1)%Z then validity_index X' lab else Some 1%R).
    replace (m + 1 - 1)%Z with m by lia.
    split; [exact HX'|]. split; [exact Hlab|].
    split; [rewrite map_lookup, Hl; reflexivity|].
    split; [exact HN|].
    split; [by apply array_max_is_maximum|].
    split; [|split].
    + rewrite map_lookup, Hl. simpl. rewrite Hmet. do 3 f_equal.
      rewrite HN. unfold fdiv, count_outliers.
      destruct (Req_dec_T (INR (nrows X)) 0) as [H0|_]; [|reflexivity].
      change 0%R with (INR 0) in H0. apply INR_eq in H0. lia.
    + intros HK. rewrite bool_decide_eq_false_2 by lia. auto.
    + intros HK. rewrite bool_decide_eq_true_2 by lia. auto.
Qed.

Lemma compute_clustering_metrics_witness :
  Forall (fun X => all_finite X = true /\ 32 <= nrows X /\ 32 <= ncols X)
         [ones 40 40] /\
  exists labels metrics,
    compute_clustering (H := toy_libraries) [ones 40 40] = Ok (labels, metrics).
Proof.
  assert (Hdata : Forall (fun X => all_finite X = true /\ 32 <= nrows X /\ 32 <= ncols X)
                         [ones 40 40]).
  { repeat constructor; simpl; lia. }
  split; [exact Hdata|].
  destruct (compute_clustering_metrics (H := toy_libraries) [ones 40 40]) as (Hok & _).
  exact (Hok Hdata).
Defined.

Lemma compute_clustering_Raise_few_columns `{Libraries} (data : list tensor)
    (X : tensor) :
  X ∈ data -> ncols X < 32 ->
  cluster_layer X = Raise ValueError /\ compute_clustering data = Raise ValueError.
Proof.
  intros Hin Hc.
  assert (HX : cluster_layer X = Raise ValueError).
  { unfold cluster_layer. rewrite PCA_fit_transform_few_columns by exact Hc.
    reflexivity. }
  split; [exact HX|].
  unfold compute_clustering.
  destruct (mapM cluster_layer data) as [per_layer|e] eqn:Hmap; simpl.
  - apply list_elem_of_lookup in Hin as [l Hl].
    destruct (mapM_Ok_lookup _ _ _ _ _ Hmap Hl) as (y & _ & Hy). congruence.
  - apply mapM_Raise_elem in Hmap as (X0 & _ & HX0).
    apply cluster_layer_Raise in HX0. by subst.
Qed.

(** C2, as stated, fails on a finite matrix of 40 rows and 2 columns: the
    reduction to 32 components is refused, and the clustering of the
    matrix raises. *)
Lemma compute_clustering_two_columns :
  ncols (ones 40 2) < 32 /\
  PCA_fit_transform (H := toy_libraries) 32 (ones 40 2) = Raise ValueError /\
  compute_clustering (H := toy_libraries) [ones 40 2] = Raise ValueError.
Proof.
  split; [simpl; lia|]. split.
  - apply PCA_fit_transform_few_columns. simpl. lia.
  - apply (compute_clustering_Raise_few_columns (H := toy_libraries) _ (ones 40 2)).
    + apply list_elem_of_here.
    + simpl. lia.
Qed.

(** C2, amended.  [compute_clustering] asks for 32 principal components
    whatever the input, and has no fallback: on a matrix of fewer than 32
    columns the reduction raises a [ValueError], and so does
    [compute_clustering] on every list that holds such a matrix; no
    clustering of that matrix takes place. *)
Theorem compute_clustering_few_columns `{Libraries} (data : list tensor) (X : tensor) :
  X ∈ data -> ncols X < 32 ->
  PCA_fit_transform 32 X = Raise ValueError /\
  cluster_layer X = Raise ValueError /\
  compute_clustering data = Raise ValueError.
Proof.
  intros Hin Hc. split; [by apply PCA_fit_transform_few_columns|].
  by apply compute_clustering_Raise_few_columns.
Qed.

Lemma compute_clustering_few_columns_witness :
  ones 40 2 ∈ [ones 40 40; ones 40 2] /\ ncols (ones 40 2) < 32 /\
  compute_clustering (H := toy_libraries) [ones 40 40; ones 40 2] = Raise ValueError.
Proof.
  assert (Hin : ones 40 2 ∈ [ones 40 40; ones 40 2])
    by (apply list_elem_of_further, list_elem_of_here).
  assert (Hc : ncols (ones 40 2) < 32) by (simpl; lia).
  split; [exact Hin|]. split; [exact Hc|].
  apply (compute_clustering_few_columns (H := toy_libraries) _ _ Hin Hc).
Defined.

(** ** [get_random_input] *)

Section corpus.
Context `{Libraries} (dataset : option (list string)) (tokeniser : Tokeniser).

Lemma make_sample_tokens (text : string) :
  input_ids (make_sample tokeniser text) = tokenise tokeniser text.
Proof. reflexivity. Qed.

Lemma get_random_input_tokens (fuel : nat) :
  forall (g : rng) (s : sample) (g' : rng),
  get_random_input fuel dataset tokeniser g = Some (Ok (s, g')) ->
  MIN_NUM_TOKENS <= length (input_ids s).
Proof.
  induction fuel as [|fuel IH]; intros g s g' Hs; simpl in Hs; [discriminate|].
  destruct (draw_text dataset tokeniser g) as [[text g1]|e]; [|discriminate].
  destruct (bool_decide (MIN_NUM_TOKENS <= length (tokenise tokeniser text))) eqn:Hlen.
  - injection Hs as <- <-. apply bool_decide_eq_true in Hlen. exact Hlen.
  - eapply IH, Hs.
Qed.

(** More turns do not change what the loop returns. *)
Lemma get_random_input_more_fuel (fuel extra : nat) :
  forall (g : rng) (r : result (sample * rng)),
  get_random_input fuel dataset tokeniser g = Some r ->
  get_random_input (fuel + extra) dataset tokeniser g = Some r.
Proof.
  induction fuel as [|fuel IH]; intros g r Hr; simpl in *; [discriminate|].
  destruct (draw_text dataset tokeniser g) as [[text g1]|e]; [|exact Hr].
  destruct (bool_decide _); [exact Hr | by apply IH].
Qed.

Lemma returns_get_random_input (g : rng) (s : sample) (g' : rng) :
  returns dataset tokeniser g s g' <->
  exists fuel, get_random_input fuel dataset tokeniser g = Some (Ok (s, g')).
Proof.
  split.
  - induction 1 as [g text g' Hdraw Hlen | g text g1 s g' Hdraw Hlen _ [fuel IH]].
    + exists 1. simpl. rewrite Hdraw, bool_decide_eq_true_2 by exact Hlen.
      reflexivity.
    + exists (S fuel). simpl. rewrite Hdraw, bool_decide_eq_false_2 by lia.
      exact IH.
  - intros [fuel Hs]. revert g Hs.
    induction fuel as [|fuel IH]; intros g Hs; simpl in Hs; [discriminate|].
    destruct (draw_text dataset tokeniser g) as [[text g1]|e] eqn:Hdraw; [|discriminate].
    destruct (bool_decide (MIN_NUM_TOKENS <= length (tokenise tokeniser text))) eqn:Hlen.
    + injection Hs as <- <-. apply bool_decide_eq_true in Hlen.
      by apply returns_break.
    + apply bool_decide_eq_false in Hlen.
      eapply returns_again; [exact Hdraw | lia | by apply IH].
Qed.

Lemma sample_loop_overview (fuel : nat) (model : Model) (sample_size : nat) :
  forall overview st overview' st',
  sample_loop fuel dataset tokeniser model sample_size overview st
    = Some (Ok (overview', st')) ->
  Forall (fun row => MIN_NUM_TOKENS <= num_tokens row) overview ->
  length overview' = length overview + sample_size /\
  Forall (fun row => MIN_NUM_TOKENS <= num_tokens row) overview'.
Proof.
  induction sample_size as [|n IH]; intros overview st overview' st' Hloop Hall;
    cbn [sample_loop] in Hloop.
  - injection Hloop as <- <-. split; [lia | exact Hall].
  - destruct (get_random_input fuel dataset tokeniser st.2) as [[[input g]|e]|] eqn:Hin;
      try discriminate.
    destruct (process_sample model input (st.1, g)) as [st1|e]; [|discriminate].
    apply IH in Hloop as [Hlen Hrows].
    + rewrite length_app in Hlen. simpl in Hlen. split; [lia | exact Hrows].
    + apply Forall_app. split; [exact Hall|]. constructor; [|constructor].
      simpl. eapply get_random_input_tokens, Hin.
Qed.

End corpus.

(** C10.  A sample that [get_random_input] returns has at least 300
    tokens: the loop draws a text, leaves with the first text whose
    tokenisation has at least 300 tokens and draws again otherwise.  So
    every row of the overview table of [run_experiment], one row per
    sample, has a token count of at least 300. *)
Theorem get_random_input_min_tokens `{Libraries} (dataset : option (list string))
    (tokeniser : Tokeniser) :
  (forall fuel g s g',
     get_random_input fuel dataset tokeniser g = Some (Ok (s, g')) ->
     300 <= length (input_ids s)) /\
  (forall g s g',
     returns dataset tokeniser g s g' <->
     exists fuel, get_random_input fuel dataset tokeniser g = Some (Ok (s, g'))) /\
  (forall g text g',
     draw_text dataset tokeniser g = Ok (text, g') ->
     length (tokenise tokeniser text) < 300 ->
     forall fuel,
       get_random_input (S fuel) dataset tokeniser g =
       get_random_input fuel dataset tokeniser g') /\
  (forall fuel model sample_size g overview files,
     run_experiment fuel dataset tokeniser model sample_size g
       = Some (Ok (overview, files)) ->
     length overview = sample_size /\
     Forall (fun row => 300 <= num_tokens row) overview).
Proof.
  split; [|split; [|split]].
  - intros fuel g s g'. apply get_random_input_tokens.
  - apply returns_get_random_input.
  - intros g text g' Hdraw Hlen fuel. simpl.
    rewrite Hdraw, bool_decide_eq_false_2; [reflexivity|].
    unfold MIN_NUM_TOKENS. lia.
  - intros fuel model sample_size g overview files Hrun.
    unfold run_experiment in Hrun.
    destruct (sample_loop fuel dataset tokeniser model sample_size [] (∅, g))
      as [[[overview' [results g']]|e]|] eqn:Hloop; try discriminate.
    apply sample_loop_overview in Hloop as [Hlen Hrows]; [|constructor].
    injection Hrun as Hrun.
    destruct (mapM _ _) as [fs|]; simpl in Hrun; [|discriminate].
    injection Hrun as <- _. split; [exact Hlen | exact Hrows].
Qed.

Lemma get_random_input_min_tokens_witness :
  exists s g',
    get_random_input (H := toy_libraries) 2 (Some ["b"; "aa"]) toy_tokeniser 0
      = Some (Ok (s, g')) /\
    300 <= length (input_ids s).
Proof.
  destruct (get_random_input_min_tokens (H := toy_libraries)
              (Some ["b"; "aa"]) toy_tokeniser) as (Hmin & _).
  eexists _, _. split; [reflexivity|].
  eapply (Hmin 2 0). reflexivity.
Defined.

(** ** The two targets of [run_experiment] *)

Lemma target_data_logits (target : string) (hidden_states logit_matrices : list tensor) :
  target <> "X" -> target_data target hidden_states logit_matrices = logit_matrices.
Proof.
  intros Hne. unfold target_data.
  destruct (decide (target = "X")); [contradiction | reflexivity].
Qed.

(** C1 does not hold of the code.  The data of a target are the token
    representations only when the target is named "X", and the targets
    are named "token" and "attention_logit": for both, clustering and
    t-SNE run on the attention-logit matrices, and the hidden states play
    no part in what is recorded for the "token" target.  On a sample with
    one layer, one token and four dimensions, the data of the "token"
    target are the [1 x 1] logit matrix, not the [1 x 4] representation. *)
Theorem token_target_analyses_logits `{Libraries} :
  (forall hidden_states logit_matrices,
     target_data "token" hidden_states logit_matrices = logit_matrices /\
     target_data "attention_logit" hidden_states logit_matrices = logit_matrices) /\
  (forall hidden_states hidden_states' logit_matrices st,
     analyse_target hidden_states logit_matrices st "token" =
     analyse_target hidden_states' logit_matrices st "token") /\
  (exists M,
     compute_attention_logits (take 1 [four_cols; four_cols])
       [identity_projector] [identity_projector] = Ok [M] /\
     target_data "token" [four_cols; four_cols] [M] = [M] /\
     target_data "token" [four_cols; four_cols] [M] <> drop 1 [four_cols; four_cols]).
Proof.
  split; [|split].
  - intros hs lm. split; apply target_data_logits; discriminate.
  - intros hs hs' lm [results g]. unfold analyse_target.
    rewrite !(target_data_logits "token") by discriminate. reflexivity.
  - eexists. split.
    + unfold compute_attention_logits, zip3, attention_logit. simpl. reflexivity.
    + split; [apply target_data_logits; discriminate|].
      rewrite target_data_logits by discriminate. simpl.
      intros Heq. apply (f_equal (fmap ncols)) in Heq. discriminate Heq.
Qed.

(** * Further properties *)

(** ** [stack_padded]: ranks and equal shapes *)

Section stack_padded_ranks.
Context {V : Type} `{Scalars V}.

Lemma max_extent_Raise (l : list (ndarray V)) (dim : nat) (e : exn) :
  l <> [] -> max_extent l dim = Raise e -> e = IndexError.
Proof.
  intros Hne. unfold max_extent.
  destruct (mapM (fun a => shape_at a dim) l) as [ns|e'] eqn:Hmap; simpl.
  - apply mapM_Ok_length in Hmap.
    destruct ns; [destruct l; [contradiction | discriminate] | discriminate].
  - intros [= <-]. apply mapM_Raise_elem in Hmap as (a & _ & Ha).
    unfold shape_at in Ha. destruct (shape a !! dim); congruence.
Qed.

Lemma max_extent_Ok_rank (l : list (ndarray V)) (dim n : nat) (a : ndarray V) :
  max_extent l dim = Ok n -> a ∈ l -> dim < ndim a.
Proof.
  unfold max_extent. intros Hmax Ha.
  destruct (mapM (fun a => shape_at a dim) l) as [ns|] eqn:Hmap; [|discriminate].
  apply list_elem_of_lookup in Ha as [i Hi].
  destruct (mapM_Ok_lookup _ _ _ _ _ Hmap Hi) as (m & _ & Hm).
  unfold shape_at in Hm. destruct (shape a !! dim) eqn:Hdim; [|discriminate].
  apply lookup_lt_Some in Hdim. exact Hdim.
Qed.

Lemma assign_all_Raise (l : list (ndarray V)) :
  forall i st e, assign_all i l st = Raise e -> e = IndexError.
Proof.
  induction l as [|a l IH]; intros i st e; simpl; [discriminate|].
  unfold assign_slot. destruct (decide (S (ndim a) = ndim st)); simpl.
  - apply IH.
  - congruence.
Qed.

Lemma assign_all_Ok_ranks (l : list (ndarray V)) :
  forall i st out, assign_all i l st = Ok out ->
  Forall (fun a => S (ndim a) = ndim st) l /\ shape out = shape st.
Proof.
  induction l as [|a l IH]; intros i st out; simpl.
  - intros [= <-]. split; [constructor | reflexivity].
  - unfold assign_slot. destruct (decide (S (ndim a) = ndim st)) as [Ha|]; simpl;
      [|discriminate].
    intros Hout. apply IH in Hout as [Hl Hsh]. simpl in Hsh. split; [|exact Hsh].
    constructor; [exact Ha | exact Hl].
Qed.

End stack_padded_ranks.

(** X1.  With its fill value 0, [stack_padded] accepts a non-empty list
    exactly when its arrays all have the rank of the first one; an array
    of another rank makes it raise an [IndexError]. *)
Theorem stack_padded_rank_mismatch {V : Type} `{Scalars V}
    (a0 : ndarray V) (rest : list (ndarray V)) :
  (Forall (fun a => ndim a = ndim a0) rest <->
   exists out, stack_padded (a0 :: rest) 0 = Ok out) /\
  (Exists (fun a => ndim a <> ndim a0) rest ->
   stack_padded (a0 :: rest) 0 = Raise IndexError).
Proof.
  assert (Hok : forall out, stack_padded (a0 :: rest) 0 = Ok out ->
                            Forall (fun a => ndim a = ndim a0) rest).
  { intros out. unfold stack_padded.
    destruct (mapM _ (seq 0 (ndim a0))) as [dims|] eqn:Hdims;
      cbn [mbind result_bind]; [|discriminate].
    intros Hout. apply assign_all_Ok_ranks in Hout as [Hranks _].
    apply mapM_Ok_length in Hdims. rewrite length_seq in Hdims.
    apply Forall_cons in Hranks as [_ Hranks].
    eapply Forall_impl; [exact Hranks|]. intros a Ha. simpl in Ha.
    unfold ndim in Ha at 2. simpl in Ha. lia. }
  split.
  - split.
    + intros Hrest.
      destruct (stack_padded_Ok a0 rest 0 Hrest) as (out & Hout & _). eauto.
    + intros [out Hout]. by apply (Hok out).
  - intros Hex.
    destruct (stack_padded (a0 :: rest) 0) as [out|e] eqn:Hres.
    + specialize (Hok out eq_refl). apply Exists_exists in Hex as (a & Hin & Hne).
      rewrite Forall_forall in Hok. specialize (Hok a Hin). contradiction.
    + f_equal. unfold stack_padded in Hres.
      destruct (mapM _ (seq 0 (ndim a0))) as [dims|e'] eqn:Hdims;
        cbn [mbind result_bind] in Hres.
      * by apply assign_all_Raise in Hres.
      * injection Hres as <-.
        apply mapM_Raise_elem in Hdims as (dim & _ & Hdim).
        by apply max_extent_Raise in Hdim.
Qed.

Lemma stack_padded_rank_mismatch_witness :
  let a := np_full (V := fval) [3; 3] 7 float32 in
  let b := np_full (V := fval) [2] 8 float32 in
  Exists (fun x => ndim x <> ndim a) [b] /\
  stack_padded [a; b] 0 = Raise IndexError.
Proof.
  intros a b.
  assert (Hex : Exists (fun x => ndim x <> ndim a) [b])
    by (apply Exists_cons_hd; discriminate).
  split; [exact Hex|].
  apply (stack_padded_rank_mismatch a [b]), Hex.
Defined.

Lemma list_max_const (ns : list nat) (n : nat) :
  ns <> [] -> Forall (fun m => m = n) ns -> list_max ns = n.
Proof.
  intros Hne Hall. induction Hall as [|m ns -> _ IH]; [contradiction|].
  simpl. destruct ns as [|m' ns']; [simpl; lia|].
  rewrite IH by discriminate. lia.
Qed.

Lemma map_nth_seq (s : list nat) :
  map (fun dim => nth dim s 0) (seq 0 (length s)) = s.
Proof.
  apply list_eq. intros i. rewrite map_lookup.
  destruct (s !! i) as [n|] eqn:Hi.
  - rewrite (lookup_seq_lt _ _ _ (lookup_lt_Some _ _ _ Hi)). simpl.
    f_equal. by apply nth_lookup_Some.
  - rewrite lookup_seq_ge by (by apply lookup_ge_None). reflexivity.
Qed.

Lemma max_shape_same_shape {V : Type} (a0 : ndarray V) (l : list (ndarray V)) :
  l <> [] -> Forall (fun a => shape a = shape a0) l ->
  max_shape (ndim a0) l = shape a0.
Proof.
  intros Hne Hall. unfold max_shape, ndim.
  rewrite <- (map_nth_seq (shape a0)) at 2.
  apply map_ext. intros dim. apply list_max_const.
  - destruct l; [contradiction | discriminate].
  - apply Forall_forall. intros m Hm.
    apply list_elem_of_In, in_map_iff in Hm as (a & <- & Ha).
    rewrite Forall_forall in Hall. rewrite (Hall a); [reflexivity|].
    by apply list_elem_of_In.
Qed.

(** X2.  On arrays of one shape and one element type nothing is padded:
    with its fill value 0, [stack_padded] returns what [np.stack]
    returns, an array of shape [S :: shape] whose slot [i] is the [i]-th
    array. *)
Theorem stack_padded_same_shape {V : Type} `{Scalars V}
    (a0 : ndarray V) (rest : list (ndarray V)) :
  Forall (fun a => shape a = shape a0 /\ dtype_of a = dtype_of a0) rest ->
  exists out st,
    stack_padded (a0 :: rest) 0 = Ok out /\
    np_stack (a0 :: rest) = Ok st /\
    dtype_of out = dtype_of st /\
    shape out = shape st /\
    shape out = length (a0 :: rest) :: shape a0 /\
    forall i a idx, (a0 :: rest) !! i = Some a ->
      in_region (shape a0) idx = true ->
      item out (i :: idx) = item a idx /\ item st (i :: idx) = item a idx.
Proof.
  intros Hrest.
  assert (Hall : Forall (fun a => shape a = shape a0 /\ dtype_of a = dtype_of a0)
                        (a0 :: rest)) by (constructor; auto).
  destruct (stack_padded_Ok a0 rest 0) as (out & Hout & Hdt & Hsh & Hitem).
  { eapply Forall_impl; [exact Hrest|]. intros a [Ha _]. unfold ndim. by rewrite Ha. }
  rewrite max_shape_same_shape in Hsh;
    [|discriminate|eapply Forall_impl; [exact Hall|]; by intros a [Ha _]].
  unfold np_stack.
  assert (Hshapes : forallb (fun a => bool_decide (shape a = shape a0)) (a0 :: rest) = true).
  { apply forallb_forall. intros a Ha. apply bool_decide_eq_true.
    rewrite Forall_forall in Hall. apply Hall. by apply list_elem_of_In. }
  rewrite Hshapes.
  eexists out, _. split; [exact Hout|]. split; [reflexivity|].
  split; [exact Hdt|]. split; [exact Hsh|]. split; [exact Hsh|].
  intros i a idx Ha Hin.
  rewrite Forall_forall in Hall.
  destruct (Hall a (list_elem_of_lookup_2 _ _ _ Ha)) as [Hsa Hda].
  split.
  - rewrite (Hitem i a idx Ha), Hsa, Hin, Hda. apply cast_same.
  - cbn [item]. rewrite Ha. reflexivity.
Qed.

Lemma stack_padded_same_shape_witness :
  let a := np_full (V := fval) [2; 4] 7 float64 in
  let b := np_full (V := fval) [2; 4] 8 float64 in
  Forall (fun x => shape x = shape a /\ dtype_of x = dtype_of a) [b] /\
  exists out, stack_padded [a; b] 0 = Ok out /\ shape out = [2; 2; 4].
Proof.
  intros a b.
  assert (Hsame : Forall (fun x => shape x = shape a /\ dtype_of x = dtype_of a) [b])
    by (repeat constructor).
  split; [exact Hsame|].
  destruct (stack_padded_same_shape a [b] Hsame)
    as (out & st & Hout & _ & _ & _ & Hsh & _).
  exists out. split; [exact Hout | exact Hsh].
Defined.

(** ** [compute_cos_similarities]: shapes, bounds and undefined entries *)

Lemma cos_similarity_Ok (X : tensor) :
  exists M, cos_similarity X = Ok M /\ nrows M = nrows X /\ ncols M = nrows X /\
    forall i j,
      ent M i j = dot (ncols X) (fun k => ent (F_normalize X) i k)
                                (fun k => ent (F_normalize X) j k).
Proof.
  unfold cos_similarity, matmul. cbn [ncols nrows transpose F_normalize].
  destruct (decide (ncols X = ncols X)) as [_|?]; [|contradiction].
  eexists. repeat split.
Qed.

(** X3.  [compute_cos_similarities] never raises: for any list of hidden
    states, finite or not, it returns one matrix per layer, square with
    one row per token of the layer, and symmetric. *)
Theorem compute_cos_similarities_shapes (hidden_states : list tensor) :
  exists sim_matrices,
    compute_cos_similarities hidden_states = Ok sim_matrices /\
    length sim_matrices = length hidden_states /\
    Forall2 (fun X M =>
      nrows M = nrows X /\ ncols M = nrows X /\
      forall i j, ent M i j = ent M j i)
      hidden_states sim_matrices.
Proof.
  destruct (mapM_Ok_exists cos_similarity
              (fun X M => nrows M = nrows X /\ ncols M = nrows X /\
                          forall i j, ent M i j = ent M j i) hidden_states)
    as (Ms & HMs & Hall).
  - apply Forall_forall. intros X _.
    destruct (cos_similarity_Ok X) as (M & HM & Hr & Hc & _).
    exists M. split; [exact HM|]. split; [exact Hr|]. split; [exact Hc|].
    apply (cos_similarity_symmetric X M HM).
  - exists Ms. split; [exact HMs|]. split; [|exact Hall].
    symmetry. eapply Forall2_length, Hall.
Qed.

Lemma foldr_Rplus_le (f g : nat -> R) (l : list nat) :
  (forall k, k ∈ l -> (f k <= g k)%R) ->
  (foldr Rplus 0 (map f l) <= foldr Rplus 0 (map g l))%R.
Proof.
  induction l as [|k l IH]; intros Hfg; simpl; [lra|].
  pose proof (Hfg k (list_elem_of_here _ _)).
  assert (foldr Rplus 0 (map f l) <= foldr Rplus 0 (map g l))%R
    by (apply IH; intros k' Hk'; apply Hfg; by apply list_elem_of_further).
  lra.
Qed.

Lemma foldr_Rplus_add (f g : nat -> R) (l : list nat) :
  foldr Rplus 0%R (map (fun k => f k + g k)%R l) =
  (foldr Rplus 0 (map f l) + foldr Rplus 0 (map g l))%R.
Proof. induction l as [|k l IH]; simpl; [lra|]. rewrite IH. lra. Qed.

Lemma foldr_Rplus_opp (f : nat -> R) (l : list nat) :
  foldr Rplus 0%R (map (fun k => - f k)%R l) = (- foldr Rplus 0 (map f l))%R.
Proof. induction l as [|k l IH]; simpl; [lra|]. rewrite IH. lra. Qed.

(** The sum of products of two families is bounded by the mean of their
    sums of squares. *)
Lemma rsum_product_bound (n : nat) (a b : nat -> R) :
  (- ((rsum n (fun k => a k * a k) + rsum n (fun k => b k * b k)) / 2) <=
   rsum n (fun k => a k * b k) <=
   (rsum n (fun k => a k * a k) + rsum n (fun k => b k * b k)) / 2)%R.
Proof.
  unfold rsum. set (l := seq 0 n).
  assert (Hup : (foldr Rplus 0 (map (fun k => a k * b k) l) <=
                 foldr Rplus 0 (map (fun k => (a k * a k) * / 2 + (b k * b k) * / 2) l))%R).
  { apply foldr_Rplus_le. intros k _.
    pose proof (Rle_0_sqr (a k - b k)) as Hs. unfold Rsqr in Hs. lra. }
  assert (Hlo : (foldr Rplus 0 (map (fun k => - (a k * b k)) l) <=
                 foldr Rplus 0 (map (fun k => (a k * a k) * / 2 + (b k * b k) * / 2) l))%R).
  { apply foldr_Rplus_le. intros k _.
    pose proof (Rle_0_sqr (a k + b k)) as Hs. unfold Rsqr in Hs. lra. }
  rewrite foldr_Rplus_opp in Hlo.
  rewrite foldr_Rplus_add in Hup, Hlo.
  rewrite !(foldr_Rplus_scal (/ 2) (fun k => a k * a k)%R) in Hup, Hlo.
  rewrite !(foldr_Rplus_scal (/ 2) (fun k => b k * b k)%R) in Hup, Hlo.
  lra.
Qed.

(** A normalised row has a sum of squares of at most 1. *)
Lemma normalized_row_sumsq (X : tensor) (i : nat) :
  (rsum (ncols X) (fun k =>
     real_ent X i k / Rmax (sqrt (row_sumsq X i)) normalize_eps *
     (real_ent X i k / Rmax (sqrt (row_sumsq X i)) normalize_eps)) <= 1)%R.
Proof.
  set (D := Rmax (sqrt (row_sumsq X i)) normalize_eps).
  pose proof (normalize_divisor_pos X i) as HD. fold D in HD.
  pose proof (row_sumsq_nonneg X i) as HS.
  assert (HDS : (row_sumsq X i <= D * D)%R).
  { pose proof (Rmax_l (sqrt (row_sumsq X i)) normalize_eps) as Hl. fold D in Hl.
    pose proof (sqrt_pos (row_sumsq X i)) as Hs.
    rewrite <- (sqrt_sqrt (row_sumsq X i)) at 1 by exact HS. nra. }
  rewrite (rsum_ext _ _ (fun k => real_ent X i k * real_ent X i k * (/ D * / D))%R)
    by (intros; unfold Rdiv; ring).
  rewrite rsum_scal. fold (row_sumsq X i).
  assert (Hinv : (0 < / D)%R) by (by apply Rinv_0_lt_compat).
  assert (Hone : (D * D * (/ D * / D) = 1)%R) by (field; lra).
  assert (Hsq : (0 <= / D * / D)%R) by nra.
  rewrite <- Hone. apply Rmult_le_compat_r; assumption.
Qed.

(** X4.  The similarity matrices of finite hidden states hold cosines:
    every entry is a finite number between -1 and 1. *)
Theorem compute_cos_similarities_bounded (hidden_states : list tensor) :
  Forall (fun X => all_finite X = true) hidden_states ->
  exists sim_matrices,
    compute_cos_similarities hidden_states = Ok sim_matrices /\
    Forall2 (fun X M =>
      forall i j, i < nrows X -> j < nrows X ->
        exists c, ent M i j = Some c /\ (-1 <= c <= 1)%R)
      hidden_states sim_matrices.
Proof.
  intros Hfin. apply mapM_Ok_exists.
  eapply Forall_impl; [exact Hfin|]. intros X HX. simpl in HX.
  destruct (cos_similarity_finite X HX) as (M & HM & _ & _ & Hent).
  exists M. split; [exact HM|]. intros i j Hi Hj.
  eexists. split; [apply Hent; assumption|].
  pose proof (rsum_product_bound (ncols X)
    (fun k => real_ent X i k / Rmax (sqrt (row_sumsq X i)) normalize_eps)%R
    (fun k => real_ent X j k / Rmax (sqrt (row_sumsq X j)) normalize_eps)%R) as Hb.
  pose proof (normalized_row_sumsq X i) as Hi1.
  pose proof (normalized_row_sumsq X j) as Hj1.
  cbv beta in Hb. lra.
Qed.

Lemma compute_cos_similarities_bounded_witness :
  Forall (fun X => all_finite X = true) [two_rows] /\
  exists sim_matrices, compute_cos_similarities [two_rows] = Ok sim_matrices.
Proof.
  assert (Hfin : Forall (fun X => all_finite X = true) [two_rows])
    by (repeat constructor).
  split; [exact Hfin|].
  destruct (compute_cos_similarities_bounded [two_rows] Hfin) as (Ms & HMs & _).
  exists Ms. exact HMs.
Defined.

Lemma fsum_None (l : list nat) (f : nat -> fval) (k : nat) :
  k ∈ l -> f k = None -> fsum (map f l) = None.
Proof.
  unfold fsum. induction l as [|k' l IH]; intros Hk Hf.
  - by apply elem_of_nil in Hk.
  - simpl. apply elem_of_cons in Hk as [<-|Hk].
    + rewrite Hf. reflexivity.
    + rewrite (IH Hk Hf). by destruct (f k').
Qed.

Lemma dot_None (n : nat) (f g : nat -> fval) (k : nat) :
  k < n -> f k = None -> dot n f g = None.
Proof.
  intros Hk Hf. unfold dot.
  apply (fsum_None _ (fun k => fmul (f k) (g k)) k).
  - apply list_elem_of_In, in_seq. lia.
  - rewrite Hf. reflexivity.
Qed.

(** X5.  An undefined entry (NaN, an infinity) in a hidden state spoils
    its whole row: the row and the column of that token in the similarity
    matrix of the layer are undefined throughout, the diagonal entry
    included. *)
Theorem compute_cos_similarities_undefined_row (hidden_states sim_matrices : list tensor)
    (l : nat) (X M : tensor) (i k : nat) :
  compute_cos_similarities hidden_states = Ok sim_matrices ->
  hidden_states !! l = Some X -> sim_matrices !! l = Some M ->
  k < ncols X -> ent X i k = None ->
  forall j, ent M i j = None /\ ent M j i = None.
Proof.
  intros HMs HX HM Hk Hnone j.
  destruct (mapM_Ok_lookup _ _ _ _ _ HMs HX) as (M' & HM' & Hsim).
  rewrite HM in HM'. injection HM' as <-.
  destruct (cos_similarity_Ok X) as (M' & HM' & _ & _ & Hent).
  rewrite Hsim in HM'. injection HM' as <-.
  assert (Hrow : forall k', ent (F_normalize X) i k' = None).
  { intros k'. cbn [ent F_normalize]. unfold row_norm.
    rewrite (dot_None _ _ _ k Hk Hnone). simpl. by destruct (ent X i k'). }
  assert (Hij : ent M i j = None).
  { rewrite Hent. apply (dot_None _ _ _ k Hk). apply Hrow. }
  split; [exact Hij|]. rewrite <- Hij. symmetry.
  apply (cos_similarity_symmetric X M Hsim).
Qed.

(** A hidden state with an undefined entry: the rows [(NaN, 1)] and
    [(1, 0)]. *)
Lemma compute_cos_similarities_undefined_row_witness :
  let X := {| nrows := 2; ncols := 2;
              ent := fun i j => match i, j with
                                | 0, 0 => None
                                | 1, 1 => Some 0%R
                                | _, _ => Some 1%R
                                end |} in
  exists M, compute_cos_similarities [X] = Ok [M] /\ ent M 0 1 = None.
Proof.
  intros X.
  destruct (cos_similarity_Ok X) as (M & HM & _).
  exists M. split; [by apply cos_similarity_singleton|].
  apply (compute_cos_similarities_undefined_row [X] [M] 0 X M 0 0
           (cos_similarity_singleton X M HM) eq_refl eq_refl);
    [simpl; lia | reflexivity].
Defined.

(** ** [compute_attention_logits]: what makes a layer raise *)

Lemma mapM_Ok_or_Raise_at {A B : Type} (f : A -> result B) (l : list A)
    (i : nat) (x : A) (e : exn) :
  l !! i = Some x -> f x = Raise e -> exists e', mapM f l = Raise e'.
Proof.
  intros Hi Hx. destruct (mapM f l) as [k|e'] eqn:Hmap; [|eauto].
  destruct (mapM_Ok_lookup _ _ _ _ _ Hmap Hi) as (y & _ & Hy). congruence.
Qed.

(** X6.  A layer whose keys have no column makes
    [compute_attention_logits] raise (a [ZeroDivisionError] in that
    layer, from the power [0 ** -0.5]), and so does a layer whose queries
    and keys differ in their number of columns (a [RuntimeError], from
    the matrix product); the first is met before the second.  A layer
    whose queries and keys have the same positive number of columns
    yields a matrix with one row per query row and one column per key
    row. *)
Theorem attention_logit_column_errors (X : tensor) (query key : projector)
    (Q K : tensor) :
  query X = Ok Q -> key X = Ok K ->
  (ncols K = 0 -> attention_logit X query key = Raise ZeroDivisionError) /\
  (ncols K <> 0 -> ncols Q <> ncols K ->
     attention_logit X query key = Raise RuntimeError) /\
  (ncols K <> 0 -> ncols Q = ncols K ->
     exists M, attention_logit X query key = Ok M /\
               nrows M = nrows Q /\ ncols M = nrows K) /\
  (ncols K = 0 \/ ncols Q <> ncols K ->
     forall hidden_states queries keys l,
       hidden_states !! l = Some X -> queries !! l = Some query ->
       keys !! l = Some key ->
       exists e, compute_attention_logits hidden_states queries keys = Raise e).
Proof.
  intros HQ HK.
  assert (H0 : ncols K = 0 -> attention_logit X query key = Raise ZeroDivisionError).
  { intros Hz. unfold attention_logit, pow_neg_half. rewrite HQ, HK. simpl.
    destruct (decide (ncols K = 0)); [reflexivity | contradiction]. }
  assert (Hne : ncols K <> 0 -> ncols Q <> ncols K ->
                attention_logit X query key = Raise RuntimeError).
  { intros Hz Hc. unfold attention_logit. rewrite HQ, HK. simpl.
    rewrite pow_neg_half_inv_sqrt by exact Hz. simpl.
    unfold matmul. cbn [nrows transpose].
    destruct (decide (ncols Q = ncols K)); [contradiction | reflexivity]. }
  split; [exact H0|]. split; [exact Hne|]. split.
  - intros Hz Hc. unfold attention_logit. rewrite HQ, HK. simpl.
    rewrite pow_neg_half_inv_sqrt by exact Hz. simpl.
    unfold matmul. cbn [nrows transpose].
    destruct (decide (ncols Q = ncols K)); [|contradiction].
    eexists. split; [reflexivity|]. split; reflexivity.
  - intros Hbad hs qs ks l HX Hq Hk.
    assert (Hraise : exists e, attention_logit X query key = Raise e).
    { destruct (decide (ncols K = 0)) as [Hz|Hz]; [eauto|].
      destruct Hbad as [?|Hc]; [contradiction|]. eauto. }
    destruct Hraise as [e He]. unfold compute_attention_logits.
    apply (mapM_Ok_or_Raise_at _ _ l (X, (query, key)) e); [|exact He].
    apply zip3_lookup. auto.
Qed.

Lemma attention_logit_column_errors_witness :
  let no_columns : projector := fun X => Ok (slice_cols X 0 0) in
  identity_projector two_rows = Ok two_rows /\
  no_columns two_rows = Ok (slice_cols two_rows 0 0) /\
  attention_logit two_rows identity_projector no_columns = Raise ZeroDivisionError.
Proof.
  intros no_columns. split; [reflexivity|]. split; [reflexivity|].
  apply (attention_logit_column_errors two_rows identity_projector no_columns
           two_rows (slice_cols two_rows 0 0) eq_refl eq_refl).
  reflexivity.
Defined.

(** ** [extract_queries_and_keys] *)

Lemma head_columns (head heads size : nat) :
  head < heads ->
  Nat.min ((head + 1) * (size / heads)) size - Nat.min (head * (size / heads)) size
    = size / heads.
Proof.
  intros Hhead.
  assert (Hle : heads * (size / heads) <= size) by apply Nat.Div0.mul_div_le.
  assert (Hhi : (head + 1) * (size / heads) <= heads * (size / heads))
    by (apply Nat.mul_le_mono_r; lia).
  assert (Hlo : head * (size / heads) <= (head + 1) * (size / heads))
    by (apply Nat.mul_le_mono_r; lia).
  rewrite !Nat.min_l by lia. lia.
Qed.

Lemma head_extractor_Ok (head heads size : nat) (layer : projector) (X T : tensor) :
  head < heads -> layer X = Ok T -> ncols T = size ->
  exists T',
    head_extractor head (size / heads) layer X = Ok T' /\
    nrows T' = nrows T /\ ncols T' = size / heads /\
    forall i j, ent T' i j = ent T i (head * (size / heads) + j).
Proof.
  intros Hhead HT Hsize. unfold head_extractor. rewrite HT. simpl.
  eexists. split; [reflexivity|]. split; [reflexivity|]. split; [|reflexivity].
  simpl. rewrite Hsize. by apply head_columns.
Qed.

Lemma extract_queries_and_keys_layers (model : Model) (head : nat)
    (queries keys : list projector) (l : nat) (p : projector) :
  extract_queries_and_keys model head = Ok (queries, keys) ->
  queries !! l = Some p \/ keys !! l = Some p ->
  exists layer,
    (layer ∈ attention_queries model \/ layer ∈ attention_keys model) /\
    p = head_extractor head (hidden_size model / num_attention_heads model) layer.
Proof.
  unfold extract_queries_and_keys.
  destruct (decide (num_attention_heads model = 0)); [discriminate|].
  destruct (type_of model); [| |discriminate].
  - destruct (attention_queries model) as [|q qs] eqn:Hq; [discriminate|].
    destruct (attention_keys model) as [|k ks] eqn:Hk; [discriminate|].
    intros [= <- <-] [Hp|Hp]; apply lookup_replicate in Hp as [-> _].
    + exists q. split; [left; apply list_elem_of_here | reflexivity].
    + exists k. split; [right; apply list_elem_of_here | reflexivity].
  - intros [= <- <-] [Hp|Hp]; rewrite map_lookup in Hp;
      apply fmap_Some in Hp as (layer & Hl & ->); exists layer;
      (split; [|reflexivity]).
    + left. by eapply list_elem_of_lookup_2.
    + right. by eapply list_elem_of_lookup_2.
Qed.

(** X7.  Every projector [extract_queries_and_keys] returns for a head
    below the number of heads is one of the model's query or key layers
    followed by the selection of that head's columns: on a layer output of
    [hidden_size] columns it returns the [hidden_size // num_heads]
    columns that start at [head * (hidden_size // num_heads)], every row
    kept, and it raises what the layer raises. *)
Theorem extract_queries_and_keys_head_columns (model : Model) (head : nat)
    (queries keys : list projector) (l : nat) (p : projector) :
  extract_queries_and_keys model head = Ok (queries, keys) ->
  head < num_attention_heads model ->
  queries !! l = Some p \/ keys !! l = Some p ->
  exists layer,
    (layer ∈ attention_queries model \/ layer ∈ attention_keys model) /\
    (forall X T, layer X = Ok T -> ncols T = hidden_size model ->
       exists T',
         p X = Ok T' /\ nrows T' = nrows T /\
         ncols T' = hidden_size model / num_attention_heads model /\
         forall i j,
           ent T' i j =
           ent T i (head * (hidden_size model / num_attention_heads model) + j)) /\
    (forall X e, layer X = Raise e -> p X = Raise e).
Proof.
  intros Hex Hhead Hp.
  destruct (extract_queries_and_keys_layers model head queries keys l p Hex Hp)
    as (layer & Hin & ->).
  exists layer. split; [exact Hin|]. split.
  - intros X T HT Hsize. by apply head_extractor_Ok.
  - intros X e He. unfold head_extractor. rewrite He. reflexivity.
Qed.

(** A model of two heads over four dimensions whose query and key layers
    return their input. *)
Lemma extract_queries_and_keys_head_columns_witness :
  let model := {| type_of := bert; num_hidden_layers := 1; hidden_size := 4;
                  num_attention_heads := 2;
                  attention_queries := [identity_projector];
                  attention_keys := [identity_projector];
                  forward_hidden_states := fun _ => [four_cols; four_cols] |} in
  let p := head_extractor 1 2 identity_projector in
  extract_queries_and_keys model 1 = Ok ([p], [p]) /\
  1 < num_attention_heads model /\
  exists T', p four_cols = Ok T' /\ ncols T' = 2 /\ ent T' 0 0 = ent four_cols 0 2.
Proof.
  intros model p.
  assert (Hhead : 1 < num_attention_heads model) by (simpl; lia).
  split; [reflexivity|]. split; [exact Hhead|].
  destruct (extract_queries_and_keys_head_columns model 1 [p] [p] 0 p
              eq_refl Hhead (or_introl eq_refl))
    as (layer & Hin & Hcols & _).
  assert (layer = identity_projector) as ->.
  { destruct Hin as [Hin|Hin]; simpl in Hin;
      by apply list_elem_of_singleton in Hin. }
  destruct (Hcols four_cols four_cols eq_refl eq_refl) as (T' & HT' & _ & Hc & Hent).
  exists T'. split; [exact HT'|]. split; [exact Hc|]. apply Hent.
Defined.

Lemma zip3_replicate {A B C} (l : list A) (n : nat) (y : B) (z : C) :
  zip3 l (replicate n y) (replicate n z) = map (fun x => (x, (y, z))) (take n l).
Proof.
  unfold zip3. revert n. induction l as [|x l IH]; intros [|n]; simpl;
    try reflexivity.
  f_equal. apply IH.
Qed.

Lemma mapM_map {A B C : Type} (f : B -> result C) (g : A -> B) (l : list A) :
  mapM f (map g l) = mapM (fun x => f (g x)) l.
Proof.
  induction l as [|x l IH]; simpl; [reflexivity|]. rewrite IH. reflexivity.
Qed.

(** X8.  For an albert model [extract_queries_and_keys] returns the one
    shared query projector and the one shared key projector
    [num_hidden_layers] times each, so [compute_attention_logits] applies
    the same pair to every layer, and to no more than the first
    [num_hidden_layers] hidden states. *)
Theorem extract_queries_and_keys_albert_shared (model : Model) (head : nat)
    (queries keys : list projector) :
  type_of model = albert ->
  extract_queries_and_keys model head = Ok (queries, keys) ->
  exists query key,
    queries = replicate (num_hidden_layers model) query /\
    keys = replicate (num_hidden_layers model) key /\
    forall hidden_states,
      compute_attention_logits hidden_states queries keys =
      mapM (fun X => attention_logit X query key)
           (take (num_hidden_layers model) hidden_states).
Proof.
  intros Htype. unfold extract_queries_and_keys. rewrite Htype.
  destruct (decide (num_attention_heads model = 0)); [discriminate|].
  destruct (attention_queries model) as [|q qs]; [discriminate|].
  destruct (attention_keys model) as [|k ks]; [discriminate|].
  intros [= <- <-]. eexists _, _. split; [reflexivity|]. split; [reflexivity|].
  intros hs. unfold compute_attention_logits.
  rewrite zip3_replicate, mapM_map. reflexivity.
Qed.

Lemma extract_queries_and_keys_albert_shared_witness :
  let model := {| type_of := albert; num_hidden_layers := 2; hidden_size := 4;
                  num_attention_heads := 2;
                  attention_queries := [identity_projector];
                  attention_keys := [identity_projector];
                  forward_hidden_states := fun _ => [four_cols; four_cols; four_cols] |} in
  let p := head_extractor 0 2 identity_projector in
  type_of model = albert /\
  extract_queries_and_keys model 0 = Ok ([p; p], [p; p]) /\
  exists logit_matrices,
    compute_attention_logits [four_cols; four_cols; four_cols] [p; p] [p; p]
      = Ok logit_matrices /\
    length logit_matrices = 2.
Proof.
  intros model p. split; [reflexivity|]. split; [reflexivity|].
  destruct (extract_queries_and_keys_albert_shared model 0 [p; p] [p; p]
              eq_refl eq_refl) as (query & key & Hq & Hk & Hlogits).
  injection Hq as <-. injection Hk as <-.
  rewrite Hlogits. eexists. split.
  - unfold attention_logit. simpl. reflexivity.
  - reflexivity.
Defined.

(** ** [compute_clustering]: the outlier rate, and when it runs *)

Lemma count_outliers_le (labels : list Z) : count_outliers labels <= length labels.
Proof. unfold count_outliers. apply length_filter. Qed.

Lemma count_outliers_zero (labels : list Z) :
  count_outliers labels = 0 <-> (-1)%Z ∉ labels.
Proof.
  unfold count_outliers. split.
  - intros Hlen Hin. apply length_zero_iff_nil in Hlen.
    assert (Hf : (-1)%Z ∈ filter (fun l => l = (-1)%Z) labels)
      by (apply list_elem_of_filter; auto).
    rewrite Hlen in Hf. by apply elem_of_nil in Hf.
  - intros Hnot. apply length_zero_iff_nil.
    destruct (filter _ labels) as [|x xs] eqn:Hf; [reflexivity|].
    assert (Hx : x ∈ filter (fun l => l = (-1)%Z) labels)
      by (rewrite Hf; apply list_elem_of_here).
    apply list_elem_of_filter in Hx as [-> Hin]. contradiction.
Qed.

(** X9.  Every row of metrics [compute_clustering] returns has exactly
    four entries; its second entry, the outlier rate, is a finite number
    between 0 and 1, which is 0 exactly when no point of the layer has the
    label -1 and 1 exactly when all have. *)
Theorem compute_clustering_outlier_rate `{Libraries} (data : list tensor)
    (labels : list (list Z)) (metrics : list (list fval)) (l : nat) (m : list fval) :
  compute_clustering data = Ok (labels, metrics) ->
  metrics !! l = Some m ->
  exists lab K rate silh_score dbcv_score,
    labels !! l = Some lab /\
    m = [Some (IZR K); Some rate; silh_score; dbcv_score] /\
    (0 <= rate <= 1)%R /\
    (rate = 0%R <-> (-1)%Z ∉ lab) /\
    (rate = 1%R <-> Forall (fun x => x = (-1)%Z) lab).
Proof.
  unfold compute_clustering. intros Hres Hm.
  destruct (mapM cluster_layer data) as [per_layer|] eqn:Hmap; simpl in Hres;
    [|discriminate].
  injection Hres as <- <-.
  rewrite map_lookup in Hm. apply fmap_Some in Hm as ([lab met] & Hl & ->).
  apply mapM_Ok_Forall2 in Hmap.
  destruct (Forall2_lookup_r _ _ _ _ _ Hmap Hl) as (X & HX & Hlayer).
  apply cluster_layer_Ok in Hlayer as (X' & mx & HX' & Hlab & Hmax & Hmet).
  assert (Hpos : 0 < length lab).
  { destruct lab; [discriminate | simpl; lia]. }
  pose proof (count_outliers_le lab) as Hle.
  assert (HposR : (0 < INR (length lab))%R) by (apply lt_0_INR; exact Hpos).
  exists lab, (mx + 1)%Z, (INR (count_outliers lab) / INR (length lab))%R.
  eexists _, _. split; [rewrite map_lookup, Hl; reflexivity|]. split.
  { simpl. rewrite Hmet. do 2 f_equal. unfold fdiv.
    destruct (Req_dec_T (INR (length lab)) 0) as [H0|_]; [lra | reflexivity]. }
  assert (Hc0 : (0 <= INR (count_outliers lab))%R) by apply pos_INR.
  assert (Hc1 : (INR (count_outliers lab) <= INR (length lab))%R)
    by (apply le_INR; exact Hle).
  split; [|split].
  - split.
    + apply Rmult_le_pos; [exact Hc0|]. left. by apply Rinv_0_lt_compat.
    + apply (Rmult_le_reg_r (INR (length lab))); [exact HposR|].
      unfold Rdiv. rewrite Rmult_assoc, Rinv_l by lra. lra.
  - rewrite <- count_outliers_zero. split.
    + intros Hr. apply (Rmult_eq_compat_r (INR (length lab))) in Hr.
      unfold Rdiv in Hr. rewrite Rmult_assoc, Rinv_l, Rmult_0_l, Rmult_1_r in Hr by lra.
      change 0%R with (INR 0) in Hr. by apply INR_eq in Hr.
    + intros ->. simpl. unfold Rdiv. ring.
  - split.
    + intros Hr. apply (Rmult_eq_compat_r (INR (length lab))) in Hr.
      unfold Rdiv in Hr. rewrite Rmult_assoc, Rinv_l, Rmult_1_l, Rmult_1_r in Hr by lra.
      apply INR_eq in Hr. unfold count_outliers in Hr.
      apply Forall_forall. intros x Hx.
      assert (Hfl : filter (fun l => l = (-1)%Z) lab = lab).
      { clear -Hr. induction lab as [|y lab IH]; [reflexivity|].
        rewrite filter_cons in *. destruct (decide (y = (-1)%Z)).
        - simpl in Hr. f_equal. apply IH. lia.
        - pose proof (length_filter (fun l => l = (-1)%Z) lab). simpl in Hr. lia. }
      rewrite <- Hfl in Hx. by apply list_elem_of_filter in Hx as [-> _].
    + intros Hall. unfold count_outliers.
      assert (Hfl : filter (fun l => l = (-1)%Z) lab = lab).
      { clear -Hall. induction Hall as [|y lab -> _ IH]; [reflexivity|].
        rewrite filter_cons. destruct (decide ((-1)%Z = (-1)%Z)); [|contradiction].
        by rewrite IH. }
      rewrite Hfl. unfold Rdiv. rewrite Rinv_r by lra. reflexivity.
Qed.

Lemma compute_clustering_outlier_rate_witness :
  exists labels metrics m,
    compute_clustering (H := toy_libraries) [ones 40 40] = Ok (labels, metrics) /\
    metrics !! 0 = Some m /\
    exists rate, m !! 1 = Some (Some rate) /\ (0 <= rate <= 1)%R.
Proof.
  assert (Hres : exists labels m,
            compute_clustering (H := toy_libraries) [ones 40 40] = Ok (labels, [m]))
    by (eexists _, _; reflexivity).
  destruct Hres as (labels & m & Hres).
  destruct (compute_clustering_outlier_rate (H := toy_libraries)
              [ones 40 40] labels [m] 0 m Hres eq_refl)
    as (lab & K & rate & s & v & _ & -> & Hrate & _).
  exists labels, [[Some (IZR K); Some rate; s; v]], [Some (IZR K); Some rate; s; v].
  split; [exact Hres|]. split; [reflexivity|].
  exists rate. split; [reflexivity | exact Hrate].
Defined.

(** X10.  [compute_clustering] returns exactly when every matrix of its
    input is finite and has at least 32 rows and at least 32 columns; on
    any other input (a matrix with fewer than 32 rows, or with a NaN or
    infinite entry, as much as one with fewer than 32 columns) it raises a
    [ValueError]. *)
Theorem compute_clustering_runs_iff `{Libraries} (data : list tensor) :
  ((exists r, compute_clustering data = Ok r) <->
   Forall (fun X => all_finite X = true /\ 32 <= nrows X /\ 32 <= ncols X) data) /\
  ((exists r, compute_clustering data = Ok r) \/
   compute_clustering data = Raise ValueError).
Proof.
  unfold compute_clustering. split.
  - split.
    + intros [r Hr].
      destruct (mapM cluster_layer data) as [per_layer|] eqn:Hmap; simpl in Hr;
        [|discriminate].
      apply Forall_forall. intros X HX.
      apply list_elem_of_lookup in HX as [l Hl].
      destruct (mapM_Ok_lookup _ _ _ _ _ Hmap Hl) as ([lab met] & _ & Hlayer).
      apply cluster_layer_Ok in Hlayer as (X' & m & HX' & _).
      apply PCA_fit_transform_inv in HX' as (Hfin & Hr' & Hc & _). auto.
    + intros Hdata.
      destruct (mapM_Ok_exists cluster_layer (fun _ _ => True) data) as (k & Hk & _).
      { eapply Forall_impl; [exact Hdata|]. intros X (HX & Hr & Hc).
        destruct (cluster_layer_succeeds X HX Hr Hc) as (r & Hr'). eauto. }
      rewrite Hk. simpl. eauto.
  - destruct (mapM cluster_layer data) as [per_layer|e] eqn:Hmap; simpl.
    + left. eauto.
    + right. apply mapM_Raise_elem in Hmap as (X & _ & HX).
      apply cluster_layer_Raise in HX. by subst.
Qed.

Lemma compute_clustering_runs_iff_witness :
  Forall (fun X => all_finite X = true /\ 32 <= nrows X /\ 32 <= ncols X)
         [ones 40 40; ones 32 50] /\
  exists r, compute_clustering (H := toy_libraries) [ones 40 40; ones 32 50] = Ok r.
Proof.
  assert (Hdata : Forall (fun X => all_finite X = true /\ 32 <= nrows X /\ 32 <= ncols X)
                         [ones 40 40; ones 32 50]).
  { repeat constructor; simpl; lia. }
  split; [exact Hdata|].
  destruct (compute_clustering_runs_iff (H := toy_libraries) [ones 40 40; ones 32 50])
    as [[_ Hok] _].
  exact (Hok Hdata).
Defined.

(** ** [compute_tsne_embeddings] *)

Section tsne.
Context `{Libraries}.

Lemma TSNE_fit_transform_inv (p : nat) (g : rng) (X : tensor) (r : tensor * rng) :
  TSNE_fit_transform p g X = Ok r ->
  all_finite X = true /\ p < nrows X /\ 2 <= ncols X /\ r = tsne_embed g X.
Proof.
  unfold TSNE_fit_transform. destruct (all_finite X); simpl; [|discriminate].
  destruct (bool_decide (p < nrows X)) eqn:Hp; simpl; [|discriminate].
  destruct (bool_decide (2 <= ncols X)) eqn:Hc; [|discriminate].
  apply bool_decide_eq_true in Hp, Hc. intros [= <-]. auto.
Qed.

Lemma TSNE_fit_transform_Raise (p : nat) (g : rng) (X : tensor) :
  all_finite X = false \/ nrows X <= p \/ ncols X < 2 ->
  TSNE_fit_transform p g X = Raise ValueError.
Proof.
  intros Hbad. destruct (TSNE_fit_transform p g X) as [r|e] eqn:Hres.
  - apply TSNE_fit_transform_inv in Hres as (Hfin & Hrows & Hcols & _).
    destruct Hbad as [Hbad|[Hbad|Hbad]]; [congruence | lia | lia].
  - unfold TSNE_fit_transform in Hres. destruct (_ && _); congruence.
Qed.

Lemma compute_tsne_embeddings_Ok (data : list tensor) :
  forall g tsnes g',
  compute_tsne_embeddings g data = Ok (tsnes, g') ->
  length tsnes = length data /\
  Forall (fun X => all_finite X = true /\ 5 < nrows X /\ 2 <= ncols X) data.
Proof.
  induction data as [|X data IH]; intros g tsnes g'; simpl.
  - intros [= <- <-]. split; [reflexivity | constructor].
  - destruct (TSNE_fit_transform 5 g X) as [[Y g1]|] eqn:HY; simpl; [|discriminate].
    destruct (compute_tsne_embeddings g1 data) as [[Ys g2]|] eqn:HYs; simpl;
      [|discriminate].
    intros [= <- <-]. apply IH in HYs as [Hlen Hall].
    apply TSNE_fit_transform_inv in HY as (Hfin & Hrows & Hcols & _).
    split; [simpl; lia|]. constructor; auto.
Qed.

End tsne.

(** X11.  When [compute_tsne_embeddings] returns, it returns one
    embedding per layer, and every matrix it was given is finite, has
    more than 5 rows (5 is the perplexity it asks t-SNE for) and has at
    least 2 columns.  A first matrix that is not so makes it raise a
    [ValueError]. *)
Theorem compute_tsne_embeddings_requirements `{Libraries} (g : rng)
    (data : list tensor) :
  (forall tsnes g',
     compute_tsne_embeddings g data = Ok (tsnes, g') ->
     length tsnes = length data /\
     Forall (fun X => all_finite X = true /\ 5 < nrows X /\ 2 <= ncols X) data) /\
  (forall X rest,
     data = X :: rest ->
     all_finite X = false \/ nrows X <= 5 \/ ncols X < 2 ->
     compute_tsne_embeddings g data = Raise ValueError).
Proof.
  split.
  - intros tsnes g'. apply compute_tsne_embeddings_Ok.
  - intros X rest -> Hbad. cbn [compute_tsne_embeddings].
    rewrite (TSNE_fit_transform_Raise 5 g X Hbad). reflexivity.
Qed.

Lemma compute_tsne_embeddings_requirements_witness :
  nrows (ones 3 3) <= 5 /\
  compute_tsne_embeddings (H := toy_libraries) 0 [ones 3 3; ones 40 40]
    = Raise ValueError.
Proof.
  assert (Hrows : nrows (ones 3 3) <= 5) by (simpl; lia).
  split; [exact Hrows|].
  destruct (compute_tsne_embeddings_requirements (H := toy_libraries) 0
              [ones 3 3; ones 40 40]) as [_ Hraise].
  apply (Hraise (ones 3 3) [ones 40 40] eq_refl). right. left. exact Hrows.
Defined.

(** ** [get_random_input]: short texts, and where a sample comes from *)

Section corpus_more.
Context `{Libraries} (tokeniser : Tokeniser).

Lemma draw_text_dataset (texts : list string) (g : rng) (text : string) (g' : rng) :
  draw_text (Some texts) tokeniser g = Ok (text, g') -> text ∈ texts.
Proof.
  unfold draw_text. destruct (decide (length texts = 0)); [discriminate|].
  destruct (randrange g (length texts)) as [index g1].
  destruct (texts !! index) as [t|] eqn:Ht; [|discriminate].
  intros [= <- <-]. by eapply list_elem_of_lookup_2.
Qed.

Lemma draw_text_in_range (texts : list string) (g : rng) :
  texts <> [] -> (randrange g (length texts)).1 < length texts ->
  exists text g', draw_text (Some texts) tokeniser g = Ok (text, g') /\ text ∈ texts.
Proof.
  intros Hne Hlt. unfold draw_text.
  destruct (decide (length texts = 0)) as [H0|_].
  { destruct texts; [contradiction | discriminate]. }
  destruct (randrange g (length texts)) as [index g1]. simpl in Hlt.
  destruct (lookup_lt_is_Some_2 texts index Hlt) as [t Ht]. rewrite Ht.
  exists t, g1. split; [reflexivity|]. by eapply list_elem_of_lookup_2.
Qed.

End corpus_more.

(** X12.  On a dataset whose texts all have fewer than 300 tokens
    [get_random_input] returns no sample, whatever the random draws; when
    the dataset is not empty and the random index stays within it, the
    loop draws again without end: no number of turns makes it return or
    raise. *)
Theorem get_random_input_short_texts `{Libraries} (texts : list string)
    (tokeniser : Tokeniser) :
  Forall (fun text => length (tokenise tokeniser text) < 300) texts ->
  (forall fuel g s g',
     get_random_input fuel (Some texts) tokeniser g <> Some (Ok (s, g'))) /\
  (texts <> [] ->
   (forall g, (randrange g (length texts)).1 < length texts) ->
   forall fuel g, get_random_input fuel (Some texts) tokeniser g = None).
Proof.
  intros Hshort. rewrite Forall_forall in Hshort. split.
  - induction fuel as [|fuel IH]; intros g s g'; cbn [get_random_input]; [discriminate|].
    destruct (draw_text (Some texts) tokeniser g) as [[text g1]|e] eqn:Hdraw;
      [|discriminate].
    apply draw_text_dataset in Hdraw. specialize (Hshort text Hdraw).
    rewrite bool_decide_eq_false_2 by (unfold MIN_NUM_TOKENS; lia). apply IH.
  - intros Hne Hrange. induction fuel as [|fuel IH]; intros g; cbn [get_random_input];
      [reflexivity|].
    destruct (draw_text_in_range tokeniser texts g Hne (Hrange g))
      as (text & g1 & -> & Hin).
    specialize (Hshort text Hin).
    rewrite bool_decide_eq_false_2 by (unfold MIN_NUM_TOKENS; lia). apply IH.
Qed.

Lemma get_random_input_short_texts_witness :
  Forall (fun text => length (tokenise toy_tokeniser text) < 300) ["b"; "c"] /\
  get_random_input (H := toy_libraries) 1000 (Some ["b"; "c"]) toy_tokeniser 0 = None.
Proof.
  assert (Hshort : Forall (fun text => length (tokenise toy_tokeniser text) < 300)
                          ["b"; "c"]).
  { repeat constructor; simpl; rewrite length_replicate; lia. }
  split; [exact Hshort|].
  apply (get_random_input_short_texts (H := toy_libraries) ["b"; "c"] toy_tokeniser Hshort).
  - discriminate.
  - intros g. change (g mod 2 < 2). apply Nat.mod_upper_bound. lia.
Defined.

(** X13.  A sample [get_random_input] returns from a dataset carries one
    of the dataset's texts, the tokens of that very text, and these tokens
    decoded one by one, each in brackets. *)
Theorem get_random_input_from_dataset `{Libraries} (fuel : nat) (texts : list string)
    (tokeniser : Tokeniser) (g : rng) (s : sample) (g' : rng) :
  get_random_input fuel (Some texts) tokeniser g = Some (Ok (s, g')) ->
  original_text s ∈ texts /\
  input_ids s = tokenise tokeniser (original_text s) /\
  tokenised_text s =
    String.append "("
      (String.append (String.concat ")(" (batch_decode tokeniser (input_ids s))) ")").
Proof.
  revert g. induction fuel as [|fuel IH]; intros g; cbn [get_random_input];
    [discriminate|].
  destruct (draw_text (Some texts) tokeniser g) as [[text g1]|e] eqn:Hdraw;
    [|discriminate].
  destruct (bool_decide _); [|apply IH].
  intros [= <- <-]. simpl. split; [|split; reflexivity].
  by eapply draw_text_dataset.
Qed.

Lemma get_random_input_from_dataset_witness :
  exists s g',
    get_random_input (H := toy_libraries) 2 (Some ["b"; "aa"]) toy_tokeniser 0
      = Some (Ok (s, g')) /\
    original_text s ∈ ["b"; "aa"].
Proof.
  eexists _, _. split; [reflexivity|].
  eapply (get_random_input_from_dataset (H := toy_libraries) 2 ["b"; "aa"]
            toy_tokeniser 0).
  reflexivity.
Defined.

(** ** [make_outdir] *)

Lemma string_append_assoc (s1 s2 s3 : string) :
  String.append (String.append s1 s2) s3 = String.append s1 (String.append s2 s3).
Proof.
  induction s1 as [|c s1 IH]; [reflexivity|].
  change (String c (String.append (String.append s1 s2) s3) =
          String c (String.append s1 (String.append s2 s3))).
  by rewrite IH.
Qed.

(** X14.  The directory of a run starts with [rawsults/], and runs on the
    same dataset and model get the same directory only when they agree on
    both switches and on the number of layers: no two of the experiments
    of a sweep over the switches write to one directory. *)
Theorem make_outdir_distinct (model model' : Model) (name_or_path : string)
    (dataset_name : option string)
    (random_params no_dense_layers random_params' no_dense_layers' : bool) :
  (exists run_id,
     make_outdir model name_or_path dataset_name random_params no_dense_layers
       = String.append "rawsults/" run_id) /\
  (make_outdir model name_or_path dataset_name random_params no_dense_layers =
   make_outdir model' name_or_path dataset_name random_params' no_dense_layers' ->
   random_params = random_params' /\ no_dense_layers = no_dense_layers' /\
   num_hidden_layers model = num_hidden_layers model').
Proof.
  unfold make_outdir. split; [eauto|].
  intros Heq. apply (inj (String.append "rawsults/")) in Heq.
  rewrite !string_append_assoc in Heq.
  apply (inj (String.append (default "uniform" dataset_name))) in Heq.
  apply (inj (String.append "_")) in Heq.
  apply (inj (String.append name_or_path)) in Heq.
  apply (inj (String.append "_params-")) in Heq.
  destruct random_params, random_params';
    try discriminate Heq; (split; [reflexivity|]).
  - apply (inj (String.append "random")) in Heq.
    apply (inj (String.append "_dense-")) in Heq.
    destruct no_dense_layers, no_dense_layers';
      try discriminate Heq; (split; [reflexivity|]).
    + apply (inj (String.append "off")) in Heq.
      apply (inj (String.append "_layers-")) in Heq. by apply (inj pretty) in Heq.
    + apply (inj (String.append "on")) in Heq.
      apply (inj (String.append "_layers-")) in Heq. by apply (inj pretty) in Heq.
  - apply (inj (String.append "trained")) in Heq.
    apply (inj (String.append "_dense-")) in Heq.
    destruct no_dense_layers, no_dense_layers';
      try discriminate Heq; (split; [reflexivity|]).
    + apply (inj (String.append "off")) in Heq.
      apply (inj (String.append "_layers-")) in Heq. by apply (inj pretty) in Heq.
    + apply (inj (String.append "on")) in Heq.
      apply (inj (String.append "_layers-")) in Heq. by apply (inj pretty) in Heq.
Qed.

Lemma make_outdir_distinct_witness :
  make_outdir toy_model "albert-xlarge-v2" None true false =
    "rawsults/uniform_albert-xlarge-v2_params-random_dense-on_layers-1" /\
  make_outdir toy_model "albert-xlarge-v2" None true false <>
  make_outdir toy_model "albert-xlarge-v2" None true true.
Proof.
  split; [reflexivity|]. intros Heq.
  destruct (make_outdir_distinct toy_model toy_model "albert-xlarge-v2" None
              true false true true) as [_ Hinj].
  destruct (Hinj Heq) as (_ & Hdense & _). discriminate Hdense.
Defined.

(** ** [run_experiment]: what a sample adds, and what is written *)

Lemma append_result_lookup (results : gmap string (list (ndarray fval)))
    (key key' : string) (value : ndarray fval) :
  append_result results key value !! key' =
    if decide (key = key') then Some (default [] (results !! key) ++ [value])
    else results !! key'.
Proof. unfold append_result. apply lookup_insert. Qed.

Section sample_results.
Context `{Libraries}.

Lemma analyse_target_Ok (hidden_states logit_matrices : list tensor)
    (results results' : gmap string (list (ndarray fval))) (g g' : rng)
    (target : string) :
  analyse_target hidden_states logit_matrices (results, g) target = Ok (results', g') ->
  exists a b c,
    results' =
      append_result
        (append_result
           (append_result results (String.append target "_cluster_labels") a)
           (String.append target "_cluster_metrics") b)
        (String.append target "_t-SNE_embeddings") c.
Proof.
  unfold analyse_target.
  destruct (compute_clustering _) as [[labels metrics]|]; cbn [mbind result_bind];
    [|discriminate].
  destruct (compute_tsne_embeddings _ _) as [[tsnes g1]|]; cbn [mbind result_bind];
    [|discriminate].
  destruct (np_stack (map labels_array labels)) as [a|]; cbn [mbind result_bind];
    [|discriminate].
  destruct (np_stack (map metrics_array metrics)) as [b|]; cbn [mbind result_bind];
    [|discriminate].
  destruct (np_stack (map to_numpy tsnes)) as [c|]; cbn [mbind result_bind];
    [|discriminate].
  intros [= <- <-]. eauto.
Qed.

(** The eight arrays one sample adds. *)
Lemma process_sample_Ok (model : Model) (input : sample)
    (results results' : gmap string (list (ndarray fval))) (g g' : rng) :
  process_sample model input (results, g) = Ok (results', g') ->
  exists a1 a2 a3 a4 a5 a6 a7 a8,
    results' =
      append_result (append_result (append_result
        (append_result (append_result (append_result
          (append_result (append_result results
            "token_similarity" a1)
            "attention_logits" a2)
          "token_cluster_labels" a3)
          "token_cluster_metrics" a4)
          "token_t-SNE_embeddings" a5)
        "attention_logit_cluster_labels" a6)
        "attention_logit_cluster_metrics" a7)
        "attention_logit_t-SNE_embeddings" a8.
Proof.
  unfold process_sample.
  destruct (compute_cos_similarities _) as [sims|]; cbn [mbind result_bind];
    [|discriminate].
  destruct (np_stack (map to_numpy sims)) as [a1|]; cbn [mbind result_bind];
    [|discriminate].
  destruct (random_choice g _) as [[head g1]|]; cbn [mbind result_bind];
    [|discriminate].
  destruct (extract_queries_and_keys model head) as [[queries keys]|];
    cbn [mbind result_bind]; [|discriminate].
  destruct (compute_attention_logits _ queries keys) as [logits|];
    cbn [mbind result_bind]; [|discriminate].
  destruct (np_stack (map to_numpy logits)) as [a2|]; cbn [mbind result_bind];
    [|discriminate].
  cbn [for_each].
  destruct (analyse_target _ logits _ "token") as [[r1 g2]|] eqn:Htoken;
    cbn [mbind result_bind]; [|discriminate].
  destruct (analyse_target _ logits (r1, g2) "attention_logit") as [[r2 g3]|] eqn:Hlogit;
    cbn [mbind result_bind]; [|discriminate].
  intros [= <- <-].
  apply analyse_target_Ok in Htoken as (a3 & a4 & a5 & ->).
  apply analyse_target_Ok in Hlogit as (a6 & a7 & a8 & ->).
  exists a1, a2, a3, a4, a5, a6, a7, a8. reflexivity.
Qed.

End sample_results.

Lemma append_result_same (results : gmap string (list (ndarray fval)))
    (key : string) (value : ndarray fval) :
  append_result results key value !! key =
    Some (default [] (results !! key) ++ [value]).
Proof. rewrite append_result_lookup. by destruct (decide (key = key)). Qed.

Lemma append_result_other (results : gmap string (list (ndarray fval)))
    (key key' : string) (value : ndarray fval) :
  key <> key' -> append_result results key value !! key' = results !! key'.
Proof.
  intros Hne. rewrite append_result_lookup.
  destruct (decide (key = key')); [contradiction | reflexivity].
Qed.

Lemma process_sample_lookup `{Libraries} (model : Model) (input : sample)
    (results results' : gmap string (list (ndarray fval))) (g g' : rng) :
  process_sample model input (results, g) = Ok (results', g') ->
  (forall key, key ∈ result_keys ->
     exists a, results' !! key = Some (default [] (results !! key) ++ [a])) /\
  (forall key, key ∉ result_keys -> results' !! key = results !! key).
Proof.
  intros Hres.
  apply process_sample_Ok in Hres as (a1 & a2 & a3 & a4 & a5 & a6 & a7 & a8 & ->).
  split.
  - intros key Hkey. unfold result_keys in Hkey.
    repeat (apply elem_of_cons in Hkey as [->|Hkey]);
      [..|by apply elem_of_nil in Hkey];
      rewrite ?append_result_other by discriminate;
      rewrite append_result_same;
      rewrite ?append_result_other by discriminate;
      eauto.
  - intros key Hkey.
    rewrite !append_result_other; [reflexivity|..];
      intros <-; apply Hkey; unfold result_keys; repeat constructor.
Qed.

(** X15.  A sample that [run_experiment] processes adds exactly one array
    under each of the eight keys, after the arrays already there, and
    touches no other key. *)
Theorem process_sample_appends `{Libraries} (model : Model) (input : sample)
    (results results' : gmap string (list (ndarray fval))) (g g' : rng) :
  process_sample model input (results, g) = Ok (results', g') ->
  (forall key, key ∈ result_keys ->
     exists a, results' !! key = Some (default [] (results !! key) ++ [a])) /\
  (forall key, key ∉ result_keys -> results' !! key = results !! key).
Proof.
  intros Hres.
  apply process_sample_Ok in Hres as (a1 & a2 & a3 & a4 & a5 & a6 & a7 & a8 & ->).
  split.
  - intros key Hkey. unfold result_keys in Hkey.
    repeat (apply elem_of_cons in Hkey as [->|Hkey]);
      [..|by apply elem_of_nil in Hkey];
      rewrite ?append_result_other by discriminate;
      rewrite append_result_same;
      rewrite ?append_result_other by discriminate;
      eauto.
  - intros key Hkey.
    rewrite !append_result_other; [reflexivity|..];
      intros <-; apply Hkey; unfold result_keys; repeat constructor.
Qed.

Lemma process_sample_appends_witness :
  exists results' g',
    process_sample (H := toy_libraries) toy_model toy_sample (∅, 0) = Ok (results', g') /\
    exists a, results' !! "token_similarity" = Some [a].
Proof.
  assert (Hres : exists r, process_sample (H := toy_libraries) toy_model toy_sample (∅, 0)
                           = Ok r) by (eexists; reflexivity).
  destruct Hres as ([results' g'] & Hres).
  exists results', g'. split; [exact Hres|].
  destruct (process_sample_appends (H := toy_libraries) _ _ _ _ _ _ Hres) as [Hkeys _].
  destruct (Hkeys "token_similarity") as [a Ha]; [unfold result_keys; repeat constructor|].
  exists a. rewrite Ha. reflexivity.
Defined.

Lemma stack_padded_Ok_shape {V : Type} `{Scalars V} (l : list (ndarray V))
    (pad_value : Z) (out : ndarray V) :
  stack_padded l pad_value = Ok out -> exists dims, shape out = length l :: dims.
Proof.
  unfold stack_padded. destruct l as [|a0 rest]; [discriminate|].
  destruct (mapM _ (seq 0 (ndim a0))) as [dims|]; cbn [mbind result_bind];
    [|discriminate].
  intros Hout. apply assign_all_Ok_ranks in Hout as [_ Hsh].
  exists dims. exact Hsh.
Qed.

Section sample_counts.
Context `{Libraries} (dataset : option (list string)) (tokeniser : Tokeniser).

Lemma sample_loop_counts (fuel : nat) (model : Model) (sample_size : nat) :
  forall overview st overview' st',
  sample_loop fuel dataset tokeniser model sample_size overview st
    = Some (Ok (overview', st')) ->
  (forall key, key ∈ result_keys ->
     entry_count st'.1 key = entry_count st.1 key + sample_size) /\
  (forall key, key ∉ result_keys -> st'.1 !! key = st.1 !! key).
Proof.
  induction sample_size as [|n IH]; intros overview st overview' st' Hloop;
    cbn [sample_loop] in Hloop.
  - injection Hloop as <- <-. split; [intros; lia | reflexivity].
  - destruct (get_random_input fuel dataset tokeniser st.2) as [[[input g]|e]|];
      try discriminate.
    destruct (process_sample model input (st.1, g)) as [[r1 g1]|e] eqn:Hsample;
      [|discriminate].
    apply IH in Hloop as [Hin Hout].
    apply process_sample_lookup in Hsample as [Hin1 Hout1].
    simpl in Hin, Hout. split.
    + intros key Hkey. rewrite (Hin key Hkey).
      destruct (Hin1 key Hkey) as [a Ha]. unfold entry_count at 1. rewrite Ha.
      simpl. rewrite length_app. unfold entry_count. simpl. lia.
    + intros key Hkey. rewrite (Hout key Hkey). by apply Hout1.
Qed.

End sample_counts.

Lemma stack_entry_Ok (key : string) (val : list (ndarray fval))
    (f : list (string * ndarray fval)) :
  stack_entry (key, val) = Ok f ->
  (val = [] /\ f = []) \/
  (val <> [] /\ exists arr, stack_padded val 0 = Ok arr /\ f = [(key, arr)]).
Proof.
  unfold stack_entry. simpl. destruct val as [|a val]; [intros [= <-]; auto|].
  destruct (stack_padded (a :: val) 0) as [arr|]; simpl; [|discriminate].
  intros [= <-]. right. split; [discriminate | eauto].
Qed.

Lemma stacked_keys_sublist (kvs : list (string * list (ndarray fval)))
    (fs : list (list (string * ndarray fval))) :
  Forall2 (fun kv f => stack_entry kv = Ok f) kvs fs ->
  (concat fs).*1 `sublist_of` kvs.*1.
Proof.
  induction 1 as [|[key val] f kvs fs Hf _ IH]; simpl; [constructor|].
  apply stack_entry_Ok in Hf as [[_ ->]|[_ (arr & _ & ->)]]; simpl.
  - by apply sublist_cons.
  - by apply sublist_skip.
Qed.

(** X16.  When [run_experiment] returns, it has written at most one
    array per key, under the eight keys only, and the first dimension of
    every array is the number of samples; with one sample or more, all
    eight keys are written, and with no sample, nothing is. *)
Theorem run_experiment_files `{Libraries} (fuel : nat) (dataset : option (list string))
    (tokeniser : Tokeniser) (model : Model) (sample_size : nat) (g : rng)
    (overview : list overview_row) (files : list (string * ndarray fval)) :
  run_experiment fuel dataset tokeniser model sample_size g
    = Some (Ok (overview, files)) ->
  NoDup (map fst files) /\
  (forall key arr, (key, arr) ∈ files ->
     key ∈ result_keys /\ exists dims, shape arr = sample_size :: dims) /\
  (0 < sample_size ->
   forall key, key ∈ result_keys -> exists arr, (key, arr) ∈ files) /\
  (sample_size = 0 -> files = []).
Proof.
  unfold run_experiment. intros Hrun.
  destruct (sample_loop fuel dataset tokeniser model sample_size [] (∅, g))
    as [[[overview' [results g']]|e]|] eqn:Hloop; try discriminate.
  apply sample_loop_counts in Hloop as [Hin Hout]. simpl in Hin, Hout.
  injection Hrun as Hrun.
  destruct (mapM _ (map_to_list results)) as [fs|] eqn:Hmap; simpl in Hrun;
    [|discriminate].
  injection Hrun as _ <-.
  assert (Hfs : Forall2 (fun kv f => stack_entry kv = Ok f) (map_to_list results) fs).
  { apply mapM_Ok_Forall2 in Hmap. eapply Forall2_impl; [exact Hmap|].
    intros [key val] f Hf. exact Hf. }
  clear Hmap.
  assert (Hfile : forall key arr, (key, arr) ∈ concat fs ->
            exists val, results !! key = Some val /\ val <> [] /\
                        stack_padded val 0 = Ok arr).
  { intros key arr Hka. apply list_elem_of_In, in_concat in Hka as (f & Hf & Hka).
    apply list_elem_of_In, list_elem_of_lookup in Hf as [i Hi].
    destruct (Forall2_lookup_r _ _ _ _ _ Hfs Hi) as ([k val] & Hkv & Hentry).
    apply stack_entry_Ok in Hentry as [[_ ->]|(Hne & arr' & Hstack & ->)];
      [destruct Hka|].
    destruct Hka as [[= <- <-]|[]].
    exists val. split; [|auto].
    apply elem_of_map_to_list. by eapply list_elem_of_lookup_2. }
  assert (Hcount : forall key val, results !! key = Some val -> val <> [] ->
            key ∈ result_keys /\ length val = sample_size).
  { intros key val Hval Hne.
    destruct (decide (key ∈ result_keys)) as [Hkey|Hkey].
    - split; [exact Hkey|]. specialize (Hin key Hkey).
      unfold entry_count in Hin. rewrite Hval, lookup_empty in Hin. simpl in Hin. lia.
    - rewrite (Hout key Hkey), lookup_empty in Hval. discriminate. }
  split; [|split; [|split]].
  - change (map fst (concat fs)) with ((concat fs).*1).
    apply (sublist_NoDup _ ((map_to_list results).*1));
      [apply NoDup_fst_map_to_list | by apply stacked_keys_sublist].
  - intros key arr Hka. destruct (Hfile key arr Hka) as (val & Hval & Hne & Hstack).
    destruct (Hcount key val Hval Hne) as [Hkey Hlen]. split; [exact Hkey|].
    apply stack_padded_Ok_shape in Hstack as [dims Hsh].
    exists dims. by rewrite Hsh, Hlen.
  - intros Hpos key Hkey. specialize (Hin key Hkey).
    unfold entry_count in Hin. rewrite lookup_empty in Hin. simpl in Hin.
    destruct (results !! key) as [val|] eqn:Hval; [|simpl in Hin; lia].
    simpl in Hin. apply elem_of_map_to_list, list_elem_of_lookup in Hval as [i Hi].
    destruct (Forall2_lookup_l _ _ _ _ _ Hfs Hi) as (f & Hf & Hentry).
    apply stack_entry_Ok in Hentry as [[-> _]|(_ & arr & _ & ->)];
      [simpl in Hin; lia|].
    exists arr. apply list_elem_of_In, in_concat. exists [(key, arr)]. split.
    + apply list_elem_of_In. by eapply list_elem_of_lookup_2.
    + by left.
  - intros ->. destruct (concat fs) as [|[key arr] rest] eqn:Hfiles; [reflexivity|].
    destruct (Hfile key arr) as (val & Hval & Hne & _);
      [apply list_elem_of_here|].
    destruct (Hcount key val Hval Hne) as [_ Hlen].
    destruct val; [contradiction | discriminate].
Qed.

Lemma run_experiment_files_witness :
  exists overview files,
    run_experiment (H := toy_libraries) 1 (Some ["aa"]) toy_tokeniser toy_model 1 0
      = Some (Ok (overview, files)) /\
    exists arr dims, ("attention_logits", arr) ∈ files /\ shape arr = 1 :: dims.
Proof.
  assert (Hres : exists r,
    run_experiment (H := toy_libraries) 1 (Some ["aa"]) toy_tokeniser toy_model 1 0
      = Some (Ok r)) by (eexists; reflexivity).
  destruct Hres as ([overview files] & Hres).
  exists overview, files. split; [exact Hres|].
  destruct (run_experiment_files (H := toy_libraries) _ _ _ _ _ _ _ _ Hres)
    as (_ & Hshape & Hall & _).
  destruct (Hall ltac:(lia) "attention_logits") as [arr Harr];
    [unfold result_keys; repeat constructor|].
  destruct (Hshape _ _ Harr) as [_ [dims Hdims]].
  exists arr, dims. split; assumption.
Defined.

Lemma compute_cos_similarities_shapes_aux (hidden_states : list tensor) :
  exists sim_matrices,
    compute_cos_similarities hidden_states = Ok sim_matrices /\
    Forall2 (fun X M => nrows M = nrows X /\ ncols M = nrows X)
            hidden_states sim_matrices.
Proof.
  apply mapM_Ok_exists. apply Forall_forall. intros X _.
  destruct (cos_similarity_Ok X) as (M & HM & Hr & Hc & _). eauto.
Qed.

(** ** [run_experiment]: models it cannot process *)

Lemma np_stack_same_shape {V : Type} (a0 : ndarray V) (rest : list (ndarray V)) :
  Forall (fun a => shape a = shape a0) rest ->
  exists st, np_stack (a0 :: rest) = Ok st /\
             shape st = length (a0 :: rest) :: shape a0.
Proof.
  intros Hrest. unfold np_stack.
  assert (Hall : forallb (fun a => bool_decide (shape a = shape a0)) (a0 :: rest) = true).
  { apply forallb_forall. intros a Ha. apply bool_decide_eq_true.
    destruct Ha as [<-|Ha]; [reflexivity|].
    rewrite Forall_forall in Hrest. apply Hrest. by apply list_elem_of_In. }
  rewrite Hall. eexists. split; reflexivity.
Qed.

Lemma np_stack_Ok_shape {V : Type} (l : list (ndarray V)) (st : ndarray V) :
  np_stack l = Ok st ->
  exists a0 rest, l = a0 :: rest /\ shape st = length l :: shape a0 /\
                  Forall (fun a => shape a = shape a0) l.
Proof.
  unfold np_stack. destruct l as [|a0 rest]; [discriminate|].
  destruct (forallb _ (a0 :: rest)) eqn:Hall; [|discriminate].
  intros [= <-]. exists a0, rest. split; [reflexivity|]. split; [reflexivity|].
  rewrite forallb_forall in Hall. apply Forall_forall. intros a Ha.
  apply list_elem_of_In in Ha. specialize (Hall a Ha).
  by apply bool_decide_eq_true in Hall.
Qed.

(** X17.  [run_experiment] cannot process a sample of a model without
    layers or of an unsupported architecture.  When the model returns
    fewer than two hidden states, there is no similarity matrix to stack
    and the sample raises a [ValueError]; when the model is neither albert
    nor bert (and has a head, a layer, and hidden states of one number of
    rows), the similarities are computed and the sample then raises the
    [NotImplementedError] of [extract_queries_and_keys]. *)
Theorem process_sample_unsupported `{Libraries} (model : Model) (input : sample)
    (st : gmap string (list (ndarray fval)) * rng) :
  let hidden_states := forward_hidden_states model (input_ids input) in
  (length hidden_states <= 1 -> process_sample model input st = Raise ValueError) /\
  (type_of model = other_model -> num_attention_heads model <> 0 ->
   2 <= length hidden_states ->
   (forall X Y, X ∈ hidden_states -> Y ∈ hidden_states -> nrows X = nrows Y) ->
   process_sample model input st = Raise NotImplementedError).
Proof.
  intros hs. destruct st as [results g]. unfold process_sample. fold hs. split.
  - intros Hlen.
    assert (Hdrop : drop 1 hs = []).
    { destruct hs as [|X [|Y hs']]; try reflexivity. simpl in Hlen. lia. }
    rewrite Hdrop. reflexivity.
  - intros Htype Hheads Hlen Hrows.
    destruct (compute_cos_similarities_shapes_aux (drop 1 hs)) as (sims & Hsims & Hshapes).
    rewrite Hsims. cbn [mbind result_bind].
    destruct (drop 1 hs) as [|X1 rest] eqn:Hdrop.
    { destruct hs as [|X [|Y hs']]; simpl in Hlen, Hdrop; try lia. discriminate. }
    apply Forall2_cons_inv_l in Hshapes as (M1 & Ms & (Hr1 & Hc1) & Hrest & ->).
    assert (Hin : forall X, X ∈ X1 :: rest -> X ∈ hs).
    { intros X HX. rewrite <- Hdrop in HX.
      apply list_elem_of_lookup in HX as [i Hi]. rewrite lookup_drop in Hi.
      by eapply list_elem_of_lookup_2. }
    destruct (np_stack_same_shape (to_numpy M1) (map to_numpy Ms)) as (a1 & Ha1 & _).
    { apply Forall_forall. intros a Ha.
      apply list_elem_of_In, in_map_iff in Ha as (M & <- & HM).
      apply list_elem_of_In, list_elem_of_lookup in HM as [i Hi].
      destruct (Forall2_lookup_r _ _ _ _ _ Hrest Hi) as (X & HX & Hr & Hc).
      simpl. rewrite Hr, Hc, Hr1, Hc1.
      rewrite (Hrows X X1); [reflexivity| |].
      - apply Hin, list_elem_of_further. by eapply list_elem_of_lookup_2.
      - apply Hin, list_elem_of_here. }
    change (map to_numpy (M1 :: Ms)) with (to_numpy M1 :: map to_numpy Ms).
    rewrite Ha1. cbn [mbind result_bind].
    unfold random_choice. destruct (decide (num_attention_heads model = 0));
      [contradiction|]. cbn [mbind result_bind].
    destruct (randrange g (num_attention_heads model)) as [head g1].
    unfold extract_queries_and_keys.
    destruct (decide (num_attention_heads model = 0)); [contradiction|].
    rewrite Htype. reflexivity.
Qed.

Lemma process_sample_unsupported_witness :
  let model := {| type_of := other_model; num_hidden_layers := 1; hidden_size := 4;
                  num_attention_heads := 1;
                  attention_queries := []; attention_keys := [];
                  forward_hidden_states := fun _ => [two_rows; two_rows] |} in
  process_sample (H := toy_libraries) model toy_sample (∅, 0) = Raise NotImplementedError.
Proof.
  intros model.
  apply (process_sample_unsupported (H := toy_libraries) model toy_sample (∅, 0)).
  - reflexivity.
  - discriminate.
  - simpl. lia.
  - intros X Y HX HY. simpl in HX, HY.
    apply elem_of_cons in HX as [->|HX]; [|apply list_elem_of_singleton in HX as ->];
      (apply elem_of_cons in HY as [->|HY]; [|apply list_elem_of_singleton in HY as ->]);
      reflexivity.
Defined.

(** ** [run_experiment]: the shapes of the arrays of a sample *)

Section sample_shapes.
Context `{Libraries}.

Lemma compute_clustering_rows (data : list tensor) (labels : list (list Z))
    (metrics : list (list fval)) :
  compute_clustering data = Ok (labels, metrics) ->
  length metrics = length data /\
  Forall (fun m => length m = 4) metrics /\
  Forall2 (fun X lab => length lab = nrows X) data labels.
Proof.
  unfold compute_clustering.
  destruct (mapM cluster_layer data) as [per_layer|] eqn:Hmap; simpl; [|discriminate].
  intros [= <- <-]. apply mapM_Ok_Forall2 in Hmap.
  split; [|split].
  - rewrite length_map. symmetry. eapply Forall2_length, Hmap.
  - induction Hmap as [|X [lab met] data per_layer Hlayer _ IH]; simpl; constructor;
      [|exact IH].
    apply cluster_layer_Ok in Hlayer as (X' & m & _ & _ & _ & ->). reflexivity.
  - induction Hmap as [|X [lab met] data per_layer Hlayer _ IH]; simpl; constructor;
      [|exact IH].
    apply cluster_layer_Ok in Hlayer as (X' & m & HX' & -> & _ & _).
    apply PCA_fit_transform_inv in HX' as (_ & _ & _ & ->).
    simpl. rewrite hdbscan_labels_length. apply pca_project_nrows.
Qed.

Lemma np_stack_Ok_dtype {V : Type} (l : list (ndarray V)) (st : ndarray V) :
  np_stack l = Ok st ->
  exists a0 rest, l = a0 :: rest /\ dtype_of st = dtype_of a0.
Proof.
  unfold np_stack. destruct l as [|a0 rest]; [discriminate|].
  destruct (forallb _ (a0 :: rest)); [|discriminate].
  intros [= <-]. exists a0, rest. split; reflexivity.
Qed.

Lemma np_stack_metrics_shape (metrics : list (list fval)) (a : ndarray fval) :
  Forall (fun m => length m = 4) metrics ->
  np_stack (map metrics_array metrics) = Ok a ->
  shape a = [length metrics; 4].
Proof.
  intros Hall Ha. apply np_stack_Ok_shape in Ha as (a0 & rest & Hl & Hsh & _).
  rewrite Hsh, length_map. f_equal.
  destruct metrics as [|m metrics]; [discriminate|].
  injection Hl as <- _. apply Forall_cons in Hall as [Hm _]. simpl. by rewrite Hm.
Qed.

Lemma analyse_target_metrics (hidden_states logit_matrices : list tensor)
    (results results' : gmap string (list (ndarray fval))) (g g' : rng)
    (target : string) :
  target <> "X" ->
  analyse_target hidden_states logit_matrices (results, g) target = Ok (results', g') ->
  exists a b c,
    shape b = [length logit_matrices; 4] /\ dtype_of b = float64 /\
    results' =
      append_result
        (append_result
           (append_result results (String.append target "_cluster_labels") a)
           (String.append target "_cluster_metrics") b)
        (String.append target "_t-SNE_embeddings") c.
Proof.
  intros Htarget. unfold analyse_target.
  rewrite !(target_data_logits target) by exact Htarget.
  destruct (compute_clustering _) as [[labels metrics]|] eqn:Hclust;
    cbn [mbind result_bind]; [|discriminate].
  destruct (compute_tsne_embeddings _ _) as [[tsnes g1]|]; cbn [mbind result_bind];
    [|discriminate].
  destruct (np_stack (map labels_array labels)) as [a|]; cbn [mbind result_bind];
    [|discriminate].
  destruct (np_stack (map metrics_array metrics)) as [b|] eqn:Hb;
    cbn [mbind result_bind]; [|discriminate].
  destruct (np_stack (map to_numpy tsnes)) as [c|]; cbn [mbind result_bind];
    [|discriminate].
  intros [= <- <-]. exists a, b, c.
  apply compute_clustering_rows in Hclust as (Hlen & Hfour & _).
  split; [|split; [|reflexivity]].
  - rewrite (np_stack_metrics_shape metrics b Hfour Hb), Hlen. reflexivity.
  - apply np_stack_Ok_dtype in Hb as (a0 & rest & Hl & ->).
    destruct metrics as [|m ms]; [discriminate|]. by injection Hl as <- _.
Qed.

End sample_shapes.

(** The arrays one sample adds, with the matrices they stack. *)
Lemma process_sample_arrays `{Libraries} (model : Model) (input : sample)
    (results results' : gmap string (list (ndarray fval))) (g g' : rng) :
  process_sample model input (results, g) = Ok (results', g') ->
  exists sims logits a1 a2 a3 a4 a5 a6 a7 a8,
    compute_cos_similarities (drop 1 (forward_hidden_states model (input_ids input)))
      = Ok sims /\
    np_stack (map to_numpy sims) = Ok a1 /\
    np_stack (map to_numpy logits) = Ok a2 /\
    shape a4 = [length logits; 4] /\ dtype_of a4 = float64 /\
    shape a7 = [length logits; 4] /\ dtype_of a7 = float64 /\
    results' =
      append_result (append_result (append_result
        (append_result (append_result (append_result
          (append_result (append_result results
            "token_similarity" a1)
            "attention_logits" a2)
          "token_cluster_labels" a3)
          "token_cluster_metrics" a4)
          "token_t-SNE_embeddings" a5)
        "attention_logit_cluster_labels" a6)
        "attention_logit_cluster_metrics" a7)
        "attention_logit_t-SNE_embeddings" a8.
Proof.
  unfold process_sample.
  destruct (compute_cos_similarities _) as [sims|] eqn:Hsims; cbn [mbind result_bind];
    [|discriminate].
  destruct (np_stack (map to_numpy sims)) as [a1|] eqn:Ha1; cbn [mbind result_bind];
    [|discriminate].
  destruct (random_choice g _) as [[head g1]|]; cbn [mbind result_bind];
    [|discriminate].
  destruct (extract_queries_and_keys model head) as [[queries keys]|];
    cbn [mbind result_bind]; [|discriminate].
  destruct (compute_attention_logits _ queries keys) as [logits|];
    cbn [mbind result_bind]; [|discriminate].
  destruct (np_stack (map to_numpy logits)) as [a2|] eqn:Ha2; cbn [mbind result_bind];
    [|discriminate].
  cbn [for_each].
  destruct (analyse_target _ logits _ "token") as [[r1 g2]|] eqn:Htoken;
    cbn [mbind result_bind]; [|discriminate].
  destruct (analyse_target _ logits (r1, g2) "attention_logit") as [[r2 g3]|] eqn:Hlogit;
    cbn [mbind result_bind]; [|discriminate].
  intros [= <- <-].
  apply analyse_target_metrics in Htoken as (a3 & a4 & a5 & Hs4 & Hd4 & ->);
    [|discriminate].
  apply analyse_target_metrics in Hlogit as (a6 & a7 & a8 & Hs7 & Hd7 & ->);
    [|discriminate].
  exists sims, logits, a1, a2, a3, a4, a5, a6, a7, a8. auto 10.
Qed.

(** X18.  The arrays a sample adds have the shapes the docstring of
    [run_experiment] gives them: the token similarities are [L x N x N],
    for [L] the number of hidden states after the first and [N] their
    common number of rows (a sample whose layers differ in their number
    of rows is not processed), the attention logits are [L' x _ x _], and
    the cluster metrics of both targets are [L' x 4] arrays of doubles,
    for [L'] the number of logit matrices. *)
Theorem process_sample_shapes `{Libraries} (model : Model) (input : sample)
    (results results' : gmap string (list (ndarray fval))) (g g' : rng) :
  process_sample model input (results, g) = Ok (results', g') ->
  exists a_sim a_log m_tok m_att N L' rows cols,
    results' !! "token_similarity" =
      Some (default [] (results !! "token_similarity") ++ [a_sim]) /\
    results' !! "attention_logits" =
      Some (default [] (results !! "attention_logits") ++ [a_log]) /\
    results' !! "token_cluster_metrics" =
      Some (default [] (results !! "token_cluster_metrics") ++ [m_tok]) /\
    results' !! "attention_logit_cluster_metrics" =
      Some (default [] (results !! "attention_logit_cluster_metrics") ++ [m_att]) /\
    shape a_sim =
      [length (forward_hidden_states model (input_ids input)) - 1; N; N] /\
    (forall X, X ∈ drop 1 (forward_hidden_states model (input_ids input)) ->
       nrows X = N) /\
    shape a_log = [L'; rows; cols] /\
    shape m_tok = [L'; 4] /\ dtype_of m_tok = float64 /\
    shape m_att = [L'; 4] /\ dtype_of m_att = float64.
Proof.
  intros Hres.
  apply process_sample_arrays in Hres
    as (sims & logits & a1 & a2 & a3 & a4 & a5 & a6 & a7 & a8 &
        Hsims & Ha1 & Ha2 & Hs4 & Hd4 & Hs7 & Hd7 & ->).
  set (hs := forward_hidden_states model (input_ids input)) in *.
  destruct (compute_cos_similarities_shapes_aux (drop 1 hs)) as (sims' & Hsims' & Hshapes).
  rewrite Hsims in Hsims'. injection Hsims' as <-.
  apply np_stack_Ok_shape in Ha1 as (s0 & srest & Hsl & Hsh1 & Hsall).
  apply np_stack_Ok_shape in Ha2 as (l0 & lrest & Hll & Hsh2 & _).
  destruct sims as [|M1 sims]; [discriminate|]. injection Hsl as <- <-.
  destruct logits as [|T1 logits]; [discriminate|]. injection Hll as <- <-.
  exists a1, a2, a4, a7, (nrows M1), (S (length logits)), (nrows T1), (ncols T1).
  split; [|split; [|split; [|split]]].
  1-4: rewrite ?append_result_other by discriminate;
       rewrite append_result_same;
       rewrite ?append_result_other by discriminate; reflexivity.
  split; [|split; [|split; [|auto]]].
  - rewrite Hsh1. simpl. f_equal.
    + apply Forall2_length in Hshapes. rewrite length_drop in Hshapes.
      simpl in Hshapes. rewrite length_map. lia.
    + f_equal. f_equal.
      destruct (drop 1 hs) as [|X1 rest]; [inversion Hshapes|].
      apply Forall2_cons in Hshapes as [[Hr Hc] _]. congruence.
  - intros X HX. apply list_elem_of_lookup in HX as [i Hi].
    destruct (Forall2_lookup_l _ _ _ _ _ Hshapes Hi) as (M & HM & Hr & _).
    rewrite <- Hr.
    assert (Hin : to_numpy M ∈ to_numpy M1 :: map to_numpy sims).
    { change (to_numpy M ∈ map to_numpy (M1 :: sims)).
      apply list_elem_of_In, in_map, list_elem_of_In.
      by eapply list_elem_of_lookup_2. }
    rewrite Forall_forall in Hsall. specialize (Hsall _ Hin). simpl in Hsall.
    by injection Hsall.
  - rewrite Hsh2. simpl. rewrite length_map. reflexivity.
Qed.

Lemma process_sample_shapes_witness :
  exists results' g' a_sim,
    process_sample (H := toy_libraries) toy_model toy_sample (∅, 0) = Ok (results', g') /\
    results' !! "token_similarity" = Some [a_sim] /\
    shape a_sim = [1; 40; 40].
Proof.
  assert (Hres : exists r, process_sample (H := toy_libraries) toy_model toy_sample (∅, 0)
                           = Ok r) by (eexists; reflexivity).
  destruct Hres as ([results' g'] & Hres).
  destruct (process_sample_shapes (H := toy_libraries) _ _ _ _ _ _ Hres)
    as (a_sim & a_log & m_tok & m_att & N & L' & rows & cols &
        Hsim & _ & _ & _ & Hshape & HN & _).
  exists results', g', a_sim. split; [exact Hres|]. split; [exact Hsim|].
  rewrite Hshape. simpl. rewrite <- (HN (ones 40 4)); [reflexivity|].
  simpl. apply list_elem_of_here.
Defined.
